(** * Outlet weather pipeline

    A shallow embedding of [scripts/fetch_weather.py] (outlet catalog
    loader, window filter and record mapper, CSV sink) and of
    [scripts/load_csv_data.py] (reconciliation loader), with the properties
    the specification states about them.

    Conventions of the embedding:
    - a Python exception is a value of [exn]; code that may raise returns a
      [result];
    - Python's [float] is IEEE binary64, which is Rocq's primitive [float];
      [==] on floats is [PrimFloat.eqb];
    - the library parsers [int], [float] and [datetime.fromisoformat] are
      parameters of the embedding ([py_int], [py_float], [fromisoformat]);
      module [Py] gives instances on plain decimal literals and on
      [YYYY-MM-DD[THH:MM[:SS]][+HH:MM]] timestamps for the worked examples;
    - a dict whose order is observed (a [csv.DictReader] row, the
      [outlets] dict read back through [values()]) is an association list
      in insertion order; the file system and the database are finite
      maps. *)

From Stdlib Require Import ZArith String Ascii List PrimFloat Uint63.
From stdpp Require Import gmap strings list pretty.

(** ** Exceptions and results *)

Inductive exn : Type :=
  | ValueError
  | TypeError
  | KeyError
  | AttributeError
  | IndexError
  | FileNotFoundError
  | OSError
  | UnboundLocalError
  | OperationalError
  | DatabaseError.

#[global] Instance exn_eq_dec : EqDecision exn.
Proof. solve_decision. Defined.

Inductive result (A : Type) : Type :=
  | Ok (a : A)
  | Raise (e : exn).

Arguments Ok {A} a.
Arguments Raise {A} e.

#[global] Instance result_ret : MRet result := fun A a => Ok a.

#[global] Instance result_bind : MBind result := fun A B f m =>
  match m with
  | Ok a => f a
  | Raise e => Raise e
  end.

(** [try: body except (e1, e2, ...): handler], the handler not raising. *)
Definition try_except {A} (body : result A) (caught : exn → bool)
    (handler : A) : result A :=
  match body with
  | Ok a => Ok a
  | Raise e => if caught e then Ok handler else Raise e
  end.

(** [for x in l: s = body(s, x)], stopping at the first exception. *)
Fixpoint for_each {S X} (body : S → X → result S) (s : S) (l : list X)
    : result S :=
  match l with
  | [] => Ok s
  | x :: l' => s' ← body s x; for_each body s' l'
  end.

(** ** Python values *)

(** A value decoded from JSON. *)
#[local] Set Warnings "-register-all".
Inductive pyval : Type :=
  | PNone
  | PBool (b : bool)
  | PInt (z : Z)
  | PFloat (f : float)
  | PStr (s : string)
  | PList (l : list pyval)
  | PDict (d : list (string * pyval)).

(** A value of a [csv.DictReader] row: a string; [None] for a column the
    row is too short to fill; the list of surplus fields under the key
    [None] when the row is too long. *)
Inductive cell : Type :=
  | CStr (s : string)
  | CNone
  | CList (l : list string).

Abbreviation csv_row := (list (option string * cell)).

(** An insertion-ordered dict. *)
Fixpoint dict_get {K V} `{EqDecision K} (k : K) (d : list (K * V)) : option V :=
  match d with
  | [] => None
  | (k', v) :: d' => if decide (k = k') then Some v else dict_get k d'
  end.

Definition dict_keys {K V} (d : list (K * V)) : list K := map fst d.
Definition dict_values {K V} (d : list (K * V)) : list V := map snd d.

(** [k in d] *)
Definition dict_mem {K V} `{EqDecision K} (k : K) (d : list (K * V)) : bool :=
  match dict_get k d with Some _ => true | None => false end.

(** [row[k]] *)
Definition getitem (row : csv_row) (k : string) : result cell :=
  match dict_get (Some k) row with
  | Some v => Ok v
  | None => Raise KeyError
  end.

(** Truth value of a row value: the empty string, [None] and the empty
    list are false. *)
Definition cell_truthy (c : cell) : bool :=
  match c with
  | CStr s => negb (String.eqb s "")
  | CNone => false
  | CList l => match l with [] => false | _ => true end
  end.

(** A file as [open] and [csv.DictReader] deliver it: the rows, or the
    error reading raises.  A path absent from the file system does not
    exist. *)
Inductive csv_content : Type :=
  | Rows (rows : list csv_row)
  | Unreadable (e : exn).

(** ** Dates *)

(** A naive [datetime]; [<=] compares the fields in this order. *)
Record datetime : Type := {
  year : Z; month : Z; day : Z;
  hour : Z; minute : Z; second : Z; microsecond : Z
}.

Definition dt_fields (t : datetime) : list Z :=
  [year t; month t; day t; hour t; minute t; second t; microsecond t].

Fixpoint lex_le (a b : list Z) : bool :=
  match a, b with
  | [], _ => true
  | _ :: _, [] => false
  | x :: a', y :: b' => (x <? y)%Z || ((x =? y)%Z && lex_le a' b')
  end.

Definition dt_le (a b : datetime) : bool := lex_le (dt_fields a) (dt_fields b).

(** A [datetime] object: naive, or aware with its UTC offset in minutes. *)
Inductive pydatetime : Type :=
  | Naive (t : datetime)
  | Aware (t : datetime) (utcoffset : Z).

(** [a <= b] with [a] naive: ordering a naive datetime against an aware
    one raises [TypeError]. *)
Definition naive_le (a : datetime) (b : pydatetime) : result bool :=
  match b with
  | Naive t => Ok (dt_le a t)
  | Aware _ _ => Raise TypeError
  end.

(** [a <= b] with [b] naive. *)
Definition le_naive (a : pydatetime) (b : datetime) : result bool :=
  match a with
  | Naive t => Ok (dt_le t b)
  | Aware _ _ => Raise TypeError
  end.

(** [a <= t <= b] with [a] and [b] naive: [a <= t and t <= b]. *)
Definition between (a : datetime) (t : pydatetime) (b : datetime) : result bool :=
  match naive_le a t with
  | Ok true => le_naive t b
  | r => r
  end.

(** [s.replace(c, '')] for a one-character [c]. *)
Fixpoint remove_char (c : ascii) (s : string) : string :=
  match s with
  | EmptyString => EmptyString
  | String a s' =>
      if Ascii.eqb a c then remove_char c s' else String a (remove_char c s')
  end.

(** ** [scripts/fetch_weather.py] *)

Record outlet : Type := {
  o_id : Z;
  o_name : cell;
  o_latitude : float;
  o_longitude : float
}.

(** The [hourly] object of a response, in the shape the API documents:
    each member is an array, present or absent; the elements are any
    JSON values. *)
Record hourly_data : Type := {
  h_time : option (list pyval);
  h_wind_speed_10m : option (list pyval);
  h_temperature_2m : option (list pyval);
  h_relative_humidity_2m : option (list pyval)
}.

(** A decoded response body: an object with or without an [hourly]
    member.  [weather_json] is [None] for Python's [None]. *)
Record response : Type := { hourly : option hourly_data }.

Record weather_record : Type := {
  r_outlet_id : Z;
  r_outlet_name : cell;
  r_latitude : float;
  r_longitude : float;
  r_time : pyval;
  r_wind_speed_10m : pyval;
  r_temperature_2m : pyval;
  r_relative_humidity_2m : pyval
}.

(** [l[i]] for [0 <= i] *)
Definition list_index (l : list pyval) (i : nat) : result pyval :=
  match l !! i with
  | Some v => Ok v
  | None => Raise IndexError
  end.

(** [hourly.get(key, [])] *)
Definition get_or_empty (member : option (list pyval)) : list pyval :=
  match member with
  | Some l => l
  | None => []
  end.

(** [time_str.replace('Z', '')]: only [str] has the method. *)
Definition replace_Z (time_str : pyval) : result string :=
  match time_str with
  | PStr s => Ok (remove_char "Z"%char s)
  | _ => Raise AttributeError
  end.

Section Fetch.

(** [int(s)], [float(s)] and [datetime.fromisoformat(s)] on a string;
    [None] is [ValueError]. *)
Variable py_int : string → option Z.
Variable py_float : string → option float.
Variable fromisoformat : string → option pydatetime.
(** [str(v)] for a value that is neither [None] nor a string. *)
Variable py_str : pyval → string.

Definition int_of_cell (c : cell) : result Z :=
  match c with
  | CStr s => match py_int s with Some z => Ok z | None => Raise ValueError end
  | CNone | CList _ => Raise TypeError
  end.

Definition float_of_cell (c : cell) : result float :=
  match c with
  | CStr s => match py_float s with Some f => Ok f | None => Raise ValueError end
  | CNone | CList _ => Raise TypeError
  end.

(** [float(row[key]) if row[key] else 0.0] *)
Definition coordinate (row : csv_row) (key : string) : result float :=
  c ← getitem row key;
  if cell_truthy c then c' ← getitem row key; float_of_cell c'
  else Ok 0%float.

(** The body of the loop of [load_outlets] on one row. *)
Definition load_outlets_row (outlets : list (Z * outlet)) (row : csv_row)
    : result (list (Z * outlet)) :=
  outlet_id ← (getitem row "id" ≫= int_of_cell);
  lat ← coordinate row "latitude";
  lon ← coordinate row "longitude";
  if PrimFloat.eqb lat 0 && PrimFloat.eqb lon 0 then Ok outlets
  else if dict_mem outlet_id outlets then Ok outlets
  else
    name ← getitem row "name";
    Ok (outlets ++ [(outlet_id,
                     {| o_id := outlet_id; o_name := name;
                        o_latitude := lat; o_longitude := lon |})]).

Definition load_outlets (fs : gmap string csv_content) (csv_path : string)
    : result (list outlet) :=
  match fs !! csv_path with
  | None => Raise FileNotFoundError
  | Some (Unreadable e) => Raise e
  | Some (Rows rows) =>
      outlets ← for_each load_outlets_row [] rows;
      Ok (dict_values outlets)
  end.

Definition parse_error (e : exn) : bool :=
  match e with
  | ValueError | AttributeError => true
  | _ => false
  end.

(** [a[i] if i < len(a) else None] *)
Definition index_or_none (a : list pyval) (i : nat) : result pyval :=
  if (i <? length a)%nat then list_index a i else Ok PNone.

(** The body of the loop of [parse_weather_data] at index [i]. *)
Definition parse_weather_index (times wind_speeds temperatures humidities : list pyval)
    (outlet : outlet) (start_date end_date : datetime)
    (records : list weather_record) (i : nat) : result (list weather_record) :=
  time_str ← list_index times i;
  try_except
    (s ← replace_Z time_str;
     time_dt ← match fromisoformat s with
               | Some t => Ok t
               | None => Raise ValueError
               end;
     inside ← between start_date time_dt end_date;
     if inside : bool then
       time ← list_index times i;
       wind ← index_or_none wind_speeds i;
       temperature ← index_or_none temperatures i;
       humidity ← index_or_none humidities i;
       Ok (records ++ [{| r_outlet_id := o_id outlet;
                          r_outlet_name := o_name outlet;
                          r_latitude := o_latitude outlet;
                          r_longitude := o_longitude outlet;
                          r_time := time;
                          r_wind_speed_10m := wind;
                          r_temperature_2m := temperature;
                          r_relative_humidity_2m := humidity |}])
     else Ok records)
    parse_error records.

Definition parse_weather_data (weather_json : option response) (outlet : outlet)
    (start_date end_date : datetime) : result (list weather_record) :=
  match weather_json with
  | None => Ok []
  | Some body =>
      match hourly body with
      | None => Ok []
      | Some hourly =>
          let times := get_or_empty (h_time hourly) in
          let wind_speeds := get_or_empty (h_wind_speed_10m hourly) in
          let temperatures := get_or_empty (h_temperature_2m hourly) in
          let humidities := get_or_empty (h_relative_humidity_2m hourly) in
          for_each
            (parse_weather_index times wind_speeds temperatures humidities
               outlet start_date end_date)
            [] (seq 0 (length times))
      end
  end.

(** What [csv.DictWriter] writes for a value: nothing for [None], a
    string as it is, [str(v)] otherwise. *)
Definition csv_field (v : pyval) : string :=
  match v with
  | PNone => EmptyString
  | PStr s => s
  | _ => py_str v
  end.

Definition pyval_of_cell (c : cell) : pyval :=
  match c with
  | CStr s => PStr s
  | CNone => PNone
  | CList l => PList (map PStr l)
  end.

Definition fieldnames : list string :=
  ["outlet_id"; "outlet_name"; "latitude"; "longitude"; "time";
   "wind_speed_10m"; "temperature_2m"; "relative_humidity_2m"].

(** The values of a record in the order of [fieldnames]. *)
Definition record_values (r : weather_record) : list pyval :=
  [PInt (r_outlet_id r); pyval_of_cell (r_outlet_name r);
   PFloat (r_latitude r); PFloat (r_longitude r); r_time r;
   r_wind_speed_10m r; r_temperature_2m r; r_relative_humidity_2m r].

(** One written line, as [csv.DictReader] reads it back under the
    header [fieldnames]. *)
Definition written_row (r : weather_record) : csv_row :=
  zip (map Some fieldnames) (map (λ v, CStr (csv_field v)) (record_values r)).

(** [save_to_csv]: nothing is written for an empty record list. *)
Definition save_to_csv (records : list weather_record) (output_path : string)
    (fs : gmap string csv_content) : gmap string csv_content :=
  match records with
  | [] => fs
  | _ :: _ => <[output_path := Rows (map written_row records)]> fs
  end.

End Fetch.

(** ** Instances of the library parsers

    [int], [float] and [fromisoformat] on the plain literals the examples
    use.  Each agrees with the library on the strings it accepts; a string
    it rejects may still be accepted by the library, which is why the
    theorems below hold for every parser and only the examples use
    these. *)
Module Py.

Definition digit (a : ascii) : option Z :=
  let n := Z.of_N (N_of_ascii a) in
  if ((48 <=? n) && (n <=? 57))%Z then Some (n - 48)%Z else None.

Fixpoint digits (acc : Z) (s : string) : option Z :=
  match s with
  | EmptyString => Some acc
  | String a s' => d ← digit a; digits (10 * acc + d)%Z s'
  end.

Definition unsigned (s : string) : option Z :=
  match s with
  | EmptyString => None
  | _ => digits 0 s
  end.

(** Splits an optional sign off: [true] for a leading minus. *)
Definition sign (s : string) : bool * string :=
  match s with
  | String "-" s' => (true, s')
  | String "+" s' => (false, s')
  | _ => (false, s)
  end.

(** [int] on [[+-]digits]. *)
Definition int (s : string) : option Z :=
  let '(neg, body) := sign s in
  z ← unsigned body; Some (if neg then - z else z)%Z.

Fixpoint split_dot (s : string) : string * option string :=
  match s with
  | EmptyString => (EmptyString, None)
  | String "." s' => (EmptyString, Some s')
  | String a s' => let '(i, f) := split_dot s' in (String a i, f)
  end.

(** [float] on [[+-]digits[.digits]] with at most 15 significant
    digits: the quotient of two integers that binary64 represents
    exactly, rounded once, is the nearest double to the literal. *)
Definition float (s : string) : option float :=
  let '(neg, body) := sign s in
  let '(int_part, frac) := split_dot body in
  let frac_part := default EmptyString frac in
  let all := String.append int_part frac_part in
  m ← unsigned all;
  if (String.length all <=? 15)%nat then
    let x := PrimFloat.div (PrimFloat.of_uint63 (Uint63.of_Z m))
               (PrimFloat.of_uint63
                  (Uint63.of_Z (10 ^ Z.of_nat (String.length frac_part)))) in
    Some (if neg then PrimFloat.opp x else x)
  else None.

(** Reads exactly [n] digits. *)
Fixpoint number (n : nat) (acc : Z) (s : string) : option (Z * string) :=
  match n with
  | O => Some (acc, s)
  | S n' =>
      match s with
      | EmptyString => None
      | String a s' => d ← digit a; number n' (10 * acc + d)%Z s'
      end
  end.

Definition expect (c : ascii) (s : string) : option string :=
  match s with
  | String a s' => if Ascii.eqb a c then Some s' else None
  | EmptyString => None
  end.

Definition leap (y : Z) : bool :=
  ((y mod 4 =? 0) && (negb (y mod 100 =? 0) || (y mod 400 =? 0)))%Z.

Definition days_in_month (y m : Z) : Z :=
  if (m =? 2)%Z then (if leap y then 29 else 28)%Z
  else if ((m =? 4) || (m =? 6) || (m =? 9) || (m =? 11))%Z then 30%Z
  else 31%Z.

(** [YYYY-MM-DD] *)
Definition date (s : string) : option (Z * Z * Z * string) :=
  '(y, s) ← number 4 0 s;
  s ← expect "-" s;
  '(m, s) ← number 2 0 s;
  s ← expect "-" s;
  '(d, s) ← number 2 0 s;
  if ((1 <=? y) && (1 <=? m) && (m <=? 12) && (1 <=? d)
      && (d <=? days_in_month y m))%Z
  then Some (y, m, d, s) else None.

(** [HH:MM[:SS]] *)
Definition time (s : string) : option (Z * Z * Z * string) :=
  '(h, s) ← number 2 0 s;
  s ← expect ":" s;
  '(mi, s) ← number 2 0 s;
  '(sec, s) ← match expect ":" s with
              | Some s' => number 2 0 s'
              | None => Some (0%Z, s)
              end;
  if ((h <=? 23) && (mi <=? 59) && (sec <=? 59))%Z
  then Some (h, mi, sec, s) else None.

(** Nothing, or [+HH:MM] or [-HH:MM]; the offset in minutes. *)
Definition offset (s : string) : option (option Z) :=
  match s with
  | EmptyString => Some None
  | String c s' =>
      if Ascii.eqb c "+" || Ascii.eqb c "-" then
        '(h, s) ← number 2 0 s';
        s ← expect ":" s;
        '(mi, s) ← number 2 0 s;
        match s with
        | EmptyString =>
            if ((h <=? 23) && (mi <=? 59))%Z then
              Some (Some (if Ascii.eqb c "-" then - (60 * h + mi)
                          else 60 * h + mi)%Z)
            else None
        | _ => None
        end
      else None
  end.

(** [datetime.fromisoformat] on [YYYY-MM-DD[THH:MM[:SS]][+HH:MM]]. *)
Definition fromisoformat (s : string) : option pydatetime :=
  '(y, m, d, s) ← date s;
  match s with
  | EmptyString =>
      Some (Naive {| year := y; month := m; day := d; hour := 0;
                     minute := 0; second := 0; microsecond := 0 |})
  | String "T" s' =>
      '(h, mi, sec, s) ← time s';
      off ← offset s;
      let t := {| year := y; month := m; day := d; hour := h;
                  minute := mi; second := sec; microsecond := 0 |} in
      Some (match off with
            | None => Naive t
            | Some o => Aware t o
            end)
  | _ => None
  end.

(** [str] on integers and booleans; no theorem looks into the text of
    other values, which is left as a mark. *)
Definition str (v : pyval) : string :=
  match v with
  | PInt z => pretty z
  | PBool true => "True"
  | PBool false => "False"
  | _ => "?"
  end.

End Py.

(** ** The relational sink

    The database is an opaque store of tables: a table is the list of its
    rows in insertion order, a row the list of its columns with their
    values as the loader passed them.  Column types are recorded by the
    schema and not enforced.  A session works on its own view of the
    tables, made durable by [commit]; a connection serves a bounded number
    of statements ([healthy], [None] for a connection that never fails)
    and raises [OperationalError] from then on. *)

Abbreviation db_row := (list (string * cell)).

Inductive sqltype : Type := INTEGER | VARCHAR | NUMERIC.

(** A column name in SQL text: bare, or between double quotes. *)
Inductive ident : Type :=
  | Bare (name : string)
  | Quoted (name : string).

Definition ident_name (c : ident) : string :=
  match c with
  | Bare name | Quoted name => name
  end.

Inductive statement : Type :=
  | CreateTableIfNotExists (table : string) (columns : list (ident * sqltype))
  | TruncateTable (table : string)
  | InsertInto (table : string) (column_names : list ident).

(** The lines of output that report an outcome; banners and progress
    lines are left out. *)
Inductive line : Type :=
  | FileNotFound (csv_path : string)
  | NoData
  | RowsLoaded (n : nat)
  | WeatherRows (n : nat)
  | WeatherNoData
  | WeatherError (e : exn)
  | TotalWeatherRecords (weather_count : nat)
  | SuccessfullyLoaded (success_count total : nat)
  | LoadedWeatherRecords (weather_count : nat)
  | DatabaseConnectionError (e : exn)
  | Error (e : exn).

Record session : Type := {
  committed : gmap string (list db_row);
  working : gmap string (list db_row);
  healthy : option nat;
  stdout : list line
}.

(** A computation on the connection: it may raise, and what it did to
    the session before raising stays done. *)
Definition sink (A : Type) : Type := session → result A * session.

#[global] Instance sink_ret : MRet sink := fun A a s => (Ok a, s).

#[global] Instance sink_bind : MBind sink := fun A B f m s =>
  match m s with
  | (Ok a, s') => f a s'
  | (Raise e, s') => (Raise e, s')
  end.

Definition raise {A} (e : exn) : sink A := fun s => (Raise e, s).

Definition lift {A} (r : result A) : sink A := fun s => (r, s).

(** [try: body except Exception: handler] *)
Definition try_sink {A} (body : sink A) (handler : exn → sink A) : sink A :=
  fun s =>
    match body s with
    | (Ok a, s') => (Ok a, s')
    | (Raise e, s') => handler e s'
    end.

Fixpoint for_each_sink {S X} (body : S → X → sink S) (st : S) (l : list X)
    : sink S :=
  match l with
  | [] => mret st
  | x :: l' => st' ← body st x; for_each_sink body st' l'
  end.

(** One statement less to serve. *)
Definition serve : sink unit := fun s =>
  match healthy s with
  | None => (Ok (), s)
  | Some (S n) =>
      (Ok (), {| committed := committed s; working := working s;
                 healthy := Some n; stdout := stdout s |})
  | Some O => (Raise OperationalError, s)
  end.

(** The effect of a statement on the tables; [values] are the parameter
    rows of an insert. *)
Definition apply_statement (sql : statement) (values : list (list cell))
    (tables : gmap string (list db_row)) : result (gmap string (list db_row)) :=
  match sql with
  | CreateTableIfNotExists table _ =>
      match tables !! table with
      | Some _ => Ok tables
      | None => Ok (<[table := []]> tables)
      end
  | TruncateTable table =>
      match tables !! table with
      | Some _ => Ok (<[table := []]> tables)
      | None => Raise DatabaseError
      end
  | InsertInto table column_names =>
      match tables !! table with
      | Some old =>
          Ok (<[table := old ++ map (zip (map ident_name column_names)) values]>
                tables)
      | None => Raise DatabaseError
      end
  end.

Definition run_statement (sql : statement) (values : list (list cell)) : sink unit :=
  _ ← serve;
  (fun s =>
     match apply_statement sql values (working s) with
     | Ok tables =>
         (Ok (), {| committed := committed s; working := tables;
                    healthy := healthy s; stdout := stdout s |})
     | Raise e => (Raise e, s)
     end) : sink unit.

(** [cursor.execute(sql)]; [sql] is [None] when Python passes [None]. *)
Definition execute (sql : option statement) : sink unit :=
  match sql with
  | Some sql => run_statement sql []
  | None => raise TypeError
  end.

(** [cursor.executemany(sql, values)] *)
Definition executemany (sql : statement) (values : list (list cell)) : sink unit :=
  run_statement sql values.

(** [conn.commit()] *)
Definition commit : sink unit :=
  _ ← serve;
  (fun s =>
     (Ok (), {| committed := working s; working := working s;
                healthy := healthy s; stdout := stdout s |})) : sink unit.

Definition print (l : line) : sink unit := fun s =>
  (Ok (), {| committed := committed s; working := working s;
             healthy := healthy s; stdout := stdout s ++ [l] |}).

(** ** [scripts/load_csv_data.py] *)

Definition CSV_FILES : list (string * string) :=
  [("org", "csv_data/org.csv");
   ("platform", "csv_data/platform.csv");
   ("outlet", "csv_data/outlet.csv");
   ("listing", "csv_data/listing.csv");
   ("orders", "csv_data/orders.csv");
   ("orders_daily", "csv_data/orders_daily.csv");
   ("ratings_agg", "csv_data/ratings_agg.csv");
   ("rank", "csv_data/rank.csv")]%string.

Definition schemas : list (string * list (ident * sqltype)) :=
  [("org",
    [(Bare "id", INTEGER); (Bare "name", VARCHAR); (Bare "timestamp", VARCHAR)]);
   ("platform",
    [(Bare "id", INTEGER); (Quoted "group", VARCHAR); (Bare "name", VARCHAR);
     (Bare "country", VARCHAR)]);
   ("outlet",
    [(Bare "id", INTEGER); (Bare "org_id", INTEGER); (Bare "name", VARCHAR);
     (Bare "latitude", VARCHAR); (Bare "longitude", VARCHAR);
     (Bare "timestamp", VARCHAR)]);
   ("listing",
    [(Bare "id", INTEGER); (Bare "outlet_id", INTEGER);
     (Bare "platform_id", INTEGER); (Bare "timestamp", VARCHAR)]);
   ("orders",
    [(Bare "listing_id", INTEGER); (Bare "order_id", INTEGER);
     (Bare "placed_at", VARCHAR); (Bare "status", VARCHAR)]);
   ("orders_daily",
    [(Bare "date", VARCHAR); (Bare "listing_id", INTEGER);
     (Bare "orders", INTEGER); (Bare "timestamp", VARCHAR)]);
   ("ratings_agg",
    [(Bare "date", VARCHAR); (Bare "listing_id", INTEGER);
     (Bare "cnt_ratings", INTEGER); (Bare "avg_rating", NUMERIC)]);
   ("rank",
    [(Bare "listing_id", INTEGER); (Bare "date", VARCHAR);
     (Bare "timestamp", VARCHAR); (Bare "is_online", VARCHAR);
     (Bare "rank", VARCHAR)]);
   ("weather",
    [(Bare "outlet_id", INTEGER); (Bare "outlet_name", VARCHAR);
     (Bare "latitude", NUMERIC); (Bare "longitude", NUMERIC);
     (Bare "datetime", VARCHAR); (Bare "wind_speed_10m", NUMERIC);
     (Bare "temperature_2m", NUMERIC); (Bare "relative_humidity_2m", NUMERIC)])
  ]%string.

(** The [CREATE TABLE IF NOT EXISTS raw.<table_name>] statement, or [None]. *)
Definition get_table_schema (table_name : string) : option statement :=
  CreateTableIfNotExists table_name <$> dict_get table_name schemas.

(** [', '.join(names)]: the names, when each is a string. *)
Fixpoint join_names (names : list (option ident)) : result (list ident) :=
  match names with
  | [] => Ok []
  | Some c :: names' => l ← join_names names'; Ok (c :: l)
  | None :: _ => Raise TypeError
  end.

(** [[row[col] for col in columns]] *)
Fixpoint row_values (columns : list (option string)) (row : csv_row)
    : result (list cell) :=
  match columns with
  | [] => Ok []
  | col :: columns' =>
      match dict_get col row with
      | Some v => l ← row_values columns' row; Ok (v :: l)
      | None => Raise KeyError
      end
  end.

(** [[[row[col] for col in columns] for row in batch]] *)
Fixpoint batch_values (columns : list (option string)) (batch : list csv_row)
    : result (list (list cell)) :=
  match batch with
  | [] => Ok []
  | row :: batch' =>
      v ← row_values columns row; l ← batch_values columns batch'; Ok (v :: l)
  end.

(** [range(0, n, step)] *)
Definition range_step (n step : nat) : list nat :=
  map (λ k, k * step) (seq 0 ((n + step - 1) / step)).

Definition batch_size : nat := 1000.

(** The batch loop shared by both load paths: for each [i] of
    [range(0, len(rows), batch_size)], the values of [rows[i:i+batch_size]]
    are inserted and committed. *)
Definition insert_batches (insert_sql : statement) (columns : list (option string))
    (rows : list csv_row) : sink unit :=
  for_each_sink
    (λ _ i,
       let batch := take batch_size (drop i rows) in
       values ← lift (batch_values columns batch);
       _ ← executemany insert_sql values;
       commit)
    () (range_step (length rows) batch_size).

(** [f'"{col}"' if col in ['group', 'date'] else col] *)
Definition quote_reserved (col : option string) : option ident :=
  match col with
  | Some name =>
      if bool_decide (name ∈ ["group"; "date"]%string) then Some (Quoted name)
      else Some (Bare name)
  | None => None
  end.

Definition load_csv_to_table (fs : gmap string csv_content)
    (table_name csv_path : string) : sink bool :=
  _ ← execute (get_table_schema table_name);
  _ ← commit;
  _ ← execute (Some (TruncateTable table_name));
  _ ← commit;
  match fs !! csv_path with
  | None => _ ← print (FileNotFound csv_path); mret false
  | Some (Unreadable e) => raise e
  | Some (Rows rows) =>
      match rows with
      | [] => _ ← print NoData; mret false
      | first :: _ =>
          let columns := dict_keys first in
          column_names ← lift (join_names (map quote_reserved columns));
          let insert_sql := InsertInto table_name column_names in
          _ ← insert_batches insert_sql columns rows;
          _ ← print (RowsLoaded (length rows));
          mret true
      end
  end.

(** ['datetime' if col == 'time' else col] *)
Definition table_column (col : option string) : option ident :=
  match col with
  | Some name =>
      if bool_decide (name = "time"%string) then Some (Bare "datetime")
      else Some (Bare name)
  | None => None
  end.

(** The body of the loop of [main] over the weather artifacts. *)
Definition load_weather_file (weather_count : nat)
    (weather_file : string * csv_content) : sink nat :=
  try_sink
    (match weather_file.2 with
     | Unreadable e => raise e
     | Rows rows =>
         match rows with
         | first :: _ =>
             let csv_columns := dict_keys first in
             column_names ← lift (join_names (map table_column csv_columns));
             let insert_sql := InsertInto "weather" column_names in
             _ ← insert_batches insert_sql csv_columns rows;
             let weather_count := weather_count + length rows in
             _ ← print (WeatherRows (length rows));
             mret weather_count
         | [] => _ ← print WeatherNoData; mret weather_count
         end
     end)
    (λ e, _ ← print (WeatherError e); mret weather_count).

(** The body of the loop of [main] over [CSV_FILES.items()]. *)
Definition load_listed_table (fs : gmap string csv_content) (success_count : nat)
    (item : string * string) : sink nat :=
  let '(table_name, csv_path) := item in
  loaded ← load_csv_to_table fs table_name csv_path;
  mret (if loaded : bool then success_count + 1 else success_count).

(** What a run of the loader finds: whether the database accepts the
    connection and how many statements the connection serves, the files
    under the project root by their relative path, and the artifact
    directory, [None] when it does not exist, else its [weather_*.csv]
    files in the order of their names. *)
Record environment : Type := {
  connect : result (option nat);
  files : gmap string csv_content;
  weather_dir : option (list (string * csv_content))
}.

(** The [try] block of [main] after the connection is made.  The local
    [weather_count] is bound only where the artifact loop runs: [None]
    stands for the unbound name. *)
Definition main_try (env : environment) : sink unit :=
  success_count ← for_each_sink (load_listed_table (files env)) 0 CSV_FILES;
  weather_count ←
    match weather_dir env with
    | Some weather_files =>
        match weather_files with
        | _ :: _ =>
            _ ← execute (get_table_schema "weather");
            _ ← commit;
            weather_count ← for_each_sink load_weather_file 0 weather_files;
            _ ← (if (0 <? weather_count)%nat
                 then print (TotalWeatherRecords weather_count)
                 else mret ());
            mret (Some weather_count)
        | [] => mret None
        end
    | None => mret None
    end;
  _ ← print (SuccessfullyLoaded success_count (length CSV_FILES));
  match weather_count with
  | Some weather_count =>
      if (0 <? weather_count)%nat
      then print (LoadedWeatherRecords weather_count)
      else mret ()
  | None => raise UnboundLocalError
  end.

Record outcome : Type := {
  exit_status : Z;
  database : gmap string (list db_row);
  output : list line
}.

(** [main], run on the tables the database holds; what was committed is
    what the database holds afterwards. *)
Definition main (env : environment) (tables : gmap string (list db_row))
    : outcome :=
  match connect env with
  | Raise e =>
      {| exit_status := 1; database := tables;
         output := [if decide (e = OperationalError)
                    then DatabaseConnectionError e else Error e] |}
  | Ok served =>
      let conn := {| committed := tables; working := tables;
                     healthy := served; stdout := [] |} in
      match main_try env conn with
      | (Ok _, s) =>
          {| exit_status := 0; database := committed s; output := stdout s |}
      | (Raise e, s) =>
          {| exit_status := 1; database := committed s;
             output := stdout s ++ [if decide (e = OperationalError)
                                    then DatabaseConnectionError e
                                    else Error e] |}
      end
  end.

(** ** [weather_fetch_pipeline]

    The orchestrator of [scripts/fetch_weather.py].  Its collaborators
    outside the embedding are parameters: the clock ([datetime.now()],
    read once for the window and once more to name the artifact), the
    HTTP client [fetch_weather_data] (the decoded body, or [None] on a
    failed request; its answers may differ from call to call, so it takes
    the number of calls made before) and [strftime]. *)

(** [t - timedelta(hours=24)] for a datetime [t]: the same time on the
    previous day; [None] stands for [OverflowError], raised for a time on
    0001-01-01. *)
Definition minus_24_hours (t : datetime) : option datetime :=
  if (1 <? day t)%Z then
    Some {| year := year t; month := month t; day := day t - 1;
            hour := hour t; minute := minute t; second := second t;
            microsecond := microsecond t |}
  else if (1 <? month t)%Z then
    Some {| year := year t; month := month t - 1;
            day := Py.days_in_month (year t) (month t - 1);
            hour := hour t; minute := minute t; second := second t;
            microsecond := microsecond t |}
  else if (1 <? year t)%Z then
    Some {| year := year t - 1; month := 12; day := 31;
            hour := hour t; minute := minute t; second := second t;
            microsecond := microsecond t |}
  else None.

(** How a run of the pipeline ends: normally, with the file system it
    leaves and the records it gathered; or with an exception. *)
Inductive pipeline_outcome : Type :=
  | Finished (fs : gmap string csv_content) (all_records : list weather_record)
  | Raised (e : exn)
  | Overflowed.

Section Pipeline.

Variable py_int : string → option Z.
Variable py_float : string → option float.
Variable fromisoformat : string → option pydatetime.
Variable py_str : pyval → string.
Variable fetch_weather_data :
  nat → float → float → datetime → datetime → option response.
Variable strftime : datetime → string.

(** The body of the loop over the outlets, for the outlet reached after
    [calls] calls of the client.  A body that is falsy ([{}]) takes the
    [else] branch in the source; it has no [hourly] member, so that
    parsing it gives no record either. *)
Definition fetch_outlet (start_date end_date : datetime)
    (all_records : list weather_record) (item : nat * outlet)
    : result (list weather_record) :=
  let '(calls, outlet) := item in
  match fetch_weather_data calls (o_latitude outlet) (o_longitude outlet)
          start_date end_date with
  | Some weather_json =>
      records ← parse_weather_data fromisoformat (Some weather_json) outlet
                  start_date end_date;
      Ok (all_records ++ records)
  | None => Ok all_records
  end.

(** [weather_fetch_pipeline], run on the file system [fs] with the clock
    reading [now] when the window is computed and [later] when the
    artifact is named. *)
Definition weather_fetch_pipeline (fs : gmap string csv_content)
    (now later : datetime) : pipeline_outcome :=
  match load_outlets py_int py_float fs "csv_data/outlet.csv" with
  | Raise e => Raised e
  | Ok outlets =>
      let end_date := now in
      match minus_24_hours end_date with
      | None => Overflowed
      | Some start_date =>
          match for_each (fetch_outlet start_date end_date) []
                  (zip (seq 0 (length outlets)) outlets) with
          | Raise e => Raised e
          | Ok all_records =>
              match all_records with
              | _ :: _ =>
                  let timestamp := strftime later in
                  let output_path :=
                    String.append "data/weather/weather_"
                      (String.append timestamp ".csv") in
                  Finished (save_to_csv py_str all_records output_path fs)
                    all_records
              | [] => Finished fs all_records
              end
          end
      end
  end.

End Pipeline.

(** * Vocabulary of the properties *)

Section CatalogVocabulary.

Variable py_int : string → option Z.
Variable py_float : string → option float.

(** The id a row bears: [int(row['id'])]. *)
Definition row_id (row : csv_row) : result Z :=
  getitem row "id" ≫= int_of_cell py_int.

(** [sentinel lat lon]: both coordinates compare equal to [0.0]. *)
Definition sentinel (lat lon : float) : bool :=
  PrimFloat.eqb lat 0 && PrimFloat.eqb lon 0.

(** The row bears [id] and parses to the location [(lat, lon)], which
    is not the sentinel. *)
Definition located (row : csv_row) (id : Z) (lat lon : float) : Prop :=
  row_id row = Ok id
  ∧ coordinate py_float row "latitude" = Ok lat
  ∧ coordinate py_float row "longitude" = Ok lon
  ∧ sentinel lat lon = false.

(** The row has the four columns [load_outlets] reads, and its id and
    coordinates parse. *)
Definition well_formed_row (row : csv_row) : Prop :=
  ∃ id lat lon name,
    row_id row = Ok id
    ∧ coordinate py_float row "latitude" = Ok lat
    ∧ coordinate py_float row "longitude" = Ok lon
    ∧ getitem row "name" = Ok name.

(** Row [i] is the first row of [rows] that is located and bears the id
    of [o], and [o] is built from it. *)
Definition first_located (rows : list csv_row) (i : nat) (o : outlet) : Prop :=
  ∃ row,
    rows !! i = Some row
    ∧ located row (o_id o) (o_latitude o) (o_longitude o)
    ∧ getitem row "name" = Ok (o_name o)
    ∧ ∀ j r la lo, (j < i)%nat → rows !! j = Some r → ¬ located r (o_id o) la lo.

(** The loop invariant of [load_outlets]: the dict has one entry per
    key, each under the id of its outlet, and holds exactly the outlets
    built from the first located row of their id. *)
Definition catalog_of (rows : list csv_row) (outlets : list (Z * outlet)) : Prop :=
  NoDup (dict_keys outlets)
  ∧ (∀ k o, (k, o) ∈ outlets → o_id o = k)
  ∧ (∀ o, (o_id o, o) ∈ outlets ↔ ∃ i, first_located rows i o)
  ∧ (∀ r id la lo, r ∈ rows → located r id la lo → ∃ o, (id, o) ∈ outlets).

End CatalogVocabulary.

(** A row of the outlet catalog with the four columns [load_outlets]
    reads. *)
Definition catalog_row (id name latitude longitude : string) : csv_row :=
  [(Some "id", CStr id); (Some "name", CStr name);
   (Some "latitude", CStr latitude); (Some "longitude", CStr longitude)]%string.

(** First-wins over all rows of an id, as the specification words it: the
    outlet kept for an id that several rows bear is built from the first
    row bearing it. *)
Definition first_row_wins (py_int : string → option Z)
    (py_float : string → option float) (rows : list csv_row)
    (outs : list outlet) : Prop :=
  ∀ i k row other id,
    rows !! i = Some row → row_id py_int row = Ok id →
    (∀ j r, (j < i)%nat → rows !! j = Some r → row_id py_int r ≠ Ok id) →
    k ≠ i → rows !! k = Some other → row_id py_int other = Ok id →
    ∃ o, List.filter (λ o, Z.eqb (o_id o) id) outs = [o]
         ∧ getitem row "name" = Ok (o_name o)
         ∧ coordinate py_float row "latitude" = Ok (o_latitude o)
         ∧ coordinate py_float row "longitude" = Ok (o_longitude o).

Section WindowVocabulary.

Variable fromisoformat : string → option pydatetime.
Variable outlet : outlet.
Variables start_date end_date : datetime.
Variable h : hourly_data.

(** The timestamp is a string that parses to a naive datetime inside
    [[start_date, end_date]]. *)
Definition in_window (v : pyval) : bool :=
  match v with
  | PStr s =>
      match fromisoformat (remove_char "Z" s) with
      | Some (Naive t) => dt_le start_date t && dt_le t end_date
      | _ => false
      end
  | _ => false
  end.

(** The timestamp is a string that parses to an aware datetime. *)
Definition parses_aware (v : pyval) : bool :=
  match v with
  | PStr s =>
      match fromisoformat (remove_char "Z" s) with
      | Some (Aware _ _) => true
      | _ => false
      end
  | _ => false
  end.

(** The value an array holds at [i], [None] past its end or when the
    array is absent. *)
Definition value_at (a : option (list pyval)) (i : nat) : pyval :=
  default PNone (get_or_empty a !! i).

(** The record of index [i]. *)
Definition record_at (i : nat) : weather_record :=
  {| r_outlet_id := o_id outlet;
     r_outlet_name := o_name outlet;
     r_latitude := o_latitude outlet;
     r_longitude := o_longitude outlet;
     r_time := value_at (h_time h) i;
     r_wind_speed_10m := value_at (h_wind_speed_10m h) i;
     r_temperature_2m := value_at (h_temperature_2m h) i;
     r_relative_humidity_2m := value_at (h_relative_humidity_2m h) i |}.

Definition accepted (i : nat) : bool := in_window (value_at (h_time h) i).
Definition aware_at (i : nat) : bool := parses_aware (value_at (h_time h) i).

End WindowVocabulary.

(** A naive datetime on the minute. *)
Definition at_minute (y mo d hh mi : Z) : datetime :=
  {| year := y; month := mo; day := d; hour := hh; minute := mi;
     second := 0; microsecond := 0 |}.

(** The window filter as the specification words it, for every response:
    the call returns, and the records it returns are those of the indices
    whose timestamp parses and lies in the window. *)
Definition emits_window_indices (fromisoformat : string → option pydatetime)
    (outlet : outlet) (start_date end_date : datetime) (h : hourly_data) : Prop :=
  ∃ records,
    parse_weather_data fromisoformat (Some {| hourly := Some h |}) outlet
      start_date end_date = Ok records
    ∧ ∀ i, (i < length (get_or_empty (h_time h)))%nat →
        record_at outlet h i ∈ records
        ↔ accepted fromisoformat start_date end_date h i = true.

(** [reads a i v]: [v] is what a record takes from the array [a] at index
    [i]: the element when the array reaches [i], [None] otherwise (the
    array shorter, or absent). *)
Definition reads (a : option (list pyval)) (i : nat) (v : pyval) : Prop :=
  (∀ x, get_or_empty a !! i = Some x → v = x)
  ∧ ((length (get_or_empty a) ≤ i)%nat → v = PNone).

(** Tolerance of short measurement arrays as the specification words it,
    for every response: the call returns, and each record it returns
    reads its measurements at its index, [None] past the end. *)
Definition tolerates_short_arrays (fromisoformat : string → option pydatetime)
    (outlet : outlet) (start_date end_date : datetime) (h : hourly_data) : Prop :=
  ∃ records,
    parse_weather_data fromisoformat (Some {| hourly := Some h |}) outlet
      start_date end_date = Ok records
    ∧ ∀ r, r ∈ records →
        ∃ i, get_or_empty (h_time h) !! i = Some (r_time r)
             ∧ reads (h_wind_speed_10m h) i (r_wind_speed_10m r)
             ∧ reads (h_temperature_2m h) i (r_temperature_2m r)
             ∧ reads (h_relative_humidity_2m h) i (r_relative_humidity_2m r).

(** The connection serves [k] more statements. *)
Definition serves (k : nat) (s : session) : Prop :=
  match healthy s with
  | None => True
  | Some n => (k ≤ n)%nat
  end.

(** A session on a connection that never fails, with nothing pending. *)
Definition settled (s : session) : Prop :=
  healthy s = None ∧ committed s = working s.

(** The tables once [table] is created (if absent) and truncated. *)
Definition emptied (table : string) (tables : gmap string (list db_row))
    : gmap string (list db_row) :=
  <[table := []]> tables.

(** A session opened on tables of which [org] holds one row. *)
Definition org_session : session :=
  {| committed := {["org" := [[("id", CStr "1"); ("name", CStr "Acme")]]]}%string;
     working := {["org" := [[("id", CStr "1"); ("name", CStr "Acme")]]]}%string;
     healthy := None; stdout := [] |}.

(** The column is named: its key is a string, not the [None] under which
    a reader keeps surplus fields. *)
Definition named (col : option string) : bool :=
  match col with Some _ => true | None => false end.

Definition has_columns (columns : list (option string)) (row : csv_row) : bool :=
  forallb (λ col, dict_mem col row) columns.

(** The rows form a table under the columns of the first row: these are
    named and every row has each of them. *)
Definition rectangular (rows : list csv_row) : bool :=
  match rows with
  | [] => true
  | first :: _ =>
      forallb named (dict_keys first) && forallb (has_columns (dict_keys first)) rows
  end.

Definition column_name (col : option string) : string := default EmptyString col.

(** The values of a row under the columns. *)
Definition cells (columns : list (option string)) (row : csv_row) : list cell :=
  map (λ col, default CNone (dict_get col row)) columns.

(** The rows an insert of [rows] under [column_names] adds to a table. *)
Definition inserted (column_names : list ident) (columns : list (option string))
    (rows : list csv_row) : list db_row :=
  map (λ row, zip (map ident_name column_names) (cells columns row)) rows.

(** A source file [load_csv_to_table] loads without raising: missing, or
    a table. *)
Definition loadable (file : option csv_content) : Prop :=
  match file with
  | None => True
  | Some (Rows rows) => rectangular rows = true
  | Some (Unreadable _) => False
  end.

(** A weather artifact whose load leaves no batch half done: unreadable
    (the error is caught before anything is inserted), or a table. *)
Definition artifact_ok (content : csv_content) : Prop :=
  match content with
  | Rows rows => rectangular rows = true
  | Unreadable _ => True
  end.

(** The column names of the insert into the weather table: those of the
    artifact, [time] renamed to [datetime]. *)
Definition weather_names (columns : list (option string)) : list ident :=
  map (λ col, if bool_decide (column_name col = "time") then Bare "datetime"
              else Bare (column_name col)) columns.

(** The rows a load of the artifact appends to the weather table. *)
Definition artifact_rows (content : csv_content) : list db_row :=
  match content with
  | Rows (first :: rest) =>
      inserted (weather_names (dict_keys first)) (dict_keys first) (first :: rest)
  | _ => []
  end.

(** The session after an optional [print]. *)
Definition printed (condition : bool) (l : line) (s : session) : session :=
  if condition
  then {| committed := committed s; working := working s;
          healthy := healthy s; stdout := stdout s ++ [l] |}
  else s.

(** A run that finds its eight source files, each with one row, and no
    artifact directory. *)
Definition one_row_each : gmap string csv_content :=
  list_to_map (map (λ item : string * string,
                      (item.2, Rows [[(Some "id", CStr "1")]%string]))
                 CSV_FILES).

Definition no_artifacts : environment :=
  {| connect := Ok None; files := one_row_each; weather_dir := None |}.

(** An artifact of two rows, alone in its directory; no source file of
    the fixed list exists. *)
Definition two_row_artifact : csv_content :=
  Rows [[(Some "outlet_id", CStr "1"); (Some "time", CStr "2024-01-01T00:00");
         (Some "wind_speed_10m", CStr "3.5")];
        [(Some "outlet_id", CStr "1"); (Some "time", CStr "2024-01-01T01:00");
         (Some "wind_speed_10m", CStr "")]]%string.

Definition one_artifact : environment :=
  {| connect := Ok None; files := ∅;
     weather_dir := Some [("weather_20240102_000000.csv"%string, two_row_artifact)] |}.

(** The column of the weather table a column of the artifact goes to. *)
Definition time_to_datetime (column : string) : string :=
  if bool_decide (column = "time"%string) then "datetime"%string else column.

Section RoundTripVocabulary.

Variable py_str : pyval → string.

(** The fields of a record as [csv.DictWriter] writes them. *)
Definition written_fields (r : weather_record) : list cell :=
  map (λ v, CStr (csv_field py_str v)) (record_values r).

End RoundTripVocabulary.

(** One record, its humidity missing, written and loaded back. *)
Definition one_record : list weather_record :=
  [{| r_outlet_id := 1; r_outlet_name := CStr "A";
      r_latitude := 40; r_longitude := -75;
      r_time := PStr "2024-01-01T00:00";
      r_wind_speed_10m := PInt 4; r_temperature_2m := PInt 2;
      r_relative_humidity_2m := PNone |}].

Definition written_artifact : environment :=
  {| connect := Ok None; files := ∅;
     weather_dir := Some [("weather_20240102_000000.csv"%string,
                           Rows (map (written_row Py.str) one_record))] |}.

(** ** Vocabulary of the further properties *)

(** The time array of a response, empty when the response, its [hourly]
    member or the array is absent. *)
Definition times_of (weather_json : option response) : list pyval :=
  match weather_json with
  | Some {| hourly := Some h |} => get_or_empty (h_time h)
  | _ => []
  end.

(** The record carries the snapshot of the outlet. *)
Definition tagged (outlet : outlet) (r : weather_record) : Prop :=
  r_outlet_id r = o_id outlet
  ∧ r_outlet_name r = o_name outlet
  ∧ r_latitude r = o_latitude outlet
  ∧ r_longitude r = o_longitude outlet.

(** The records [parse_weather_data] returns, none when it raises. *)
Definition parsed_records (fromisoformat : string → option pydatetime)
    (weather_json : option response) (outlet : outlet)
    (start_date end_date : datetime) : list weather_record :=
  match parse_weather_data fromisoformat weather_json outlet start_date end_date with
  | Ok records => records
  | Raise _ => []
  end.

(** A client for the examples: the first request fails, the later ones
    get two timestamps, one day apart. *)
Definition two_hours : hourly_data :=
  {| h_time := Some [PStr "2024-01-01T12:00"; PStr "2024-01-02T12:00"];
     h_wind_speed_10m := Some [PInt 3; PInt 4];
     h_temperature_2m := None;
     h_relative_humidity_2m := None |}.

Definition flaky_client (calls : nat) (latitude longitude : float)
    (start_date end_date : datetime) : option response :=
  match calls with
  | O => None
  | S _ => Some {| hourly := Some two_hours |}
  end.

(** A client whose responses carry an offset. *)
Definition aware_client (calls : nat) (latitude longitude : float)
    (start_date end_date : datetime) : option response :=
  Some {| hourly :=
            Some {| h_time := Some [PStr "2024-01-02T06:00+00:00"];
                    h_wind_speed_10m := None;
                    h_temperature_2m := None;
                    h_relative_humidity_2m := None |} |}.

(** The outlet of the third row of [three_rows]. *)
Definition outlet_c : outlet :=
  {| o_id := 3; o_name := CStr "C"; o_latitude := 41; o_longitude := -76 |}.

(** Two digits, for the examples' [strftime]. *)
Definition two_digits (n : Z) : string :=
  if (n <? 10)%Z then String.append "0" (pretty n) else pretty n.

(** [strftime("%Y%m%d_%H%M%S")] on a datetime of a four-digit year. *)
Definition stamp (t : datetime) : string :=
  String.append (pretty (year t))
    (String.append (two_digits (month t))
       (String.append (two_digits (day t))
          (String.append "_"
             (String.append (two_digits (hour t))
                (String.append (two_digits (minute t))
                   (two_digits (second t))))))).

(** A catalog of two located outlets and one without location. *)
Definition three_rows : gmap string csv_content :=
  {["csv_data/outlet.csv"%string :=
      Rows [catalog_row "1" "A" "40.0" "-75.0";
            catalog_row "2" "B" "" "";
            catalog_row "3" "C" "41.0" "-76.0"]]}.

(** A row of the file as the table holds it: the values of the row under
    the names of the header. *)
Definition stored (columns : list (option string)) (row : csv_row) : db_row :=
  zip (map column_name columns) (cells columns row).

(** The rows a table of the fixed list holds once its source file is
    loaded: one per row of the file, in order; none when the file is
    missing or has no rows. *)
Definition table_rows (file : option csv_content) : list db_row :=
  match file with
  | Some (Rows (first :: rest)) => map (stored (dict_keys first)) (first :: rest)
  | _ => []
  end.

Definition has_rows (file : option csv_content) : bool :=
  match file with
  | Some (Rows (_ :: _)) => true
  | _ => false
  end.

(** The line [load_csv_to_table] prints for a source file it reads. *)
Definition report (csv_path : string) (file : option csv_content) : line :=
  match file with
  | Some (Rows (first :: rest)) => RowsLoaded (length (first :: rest))
  | Some (Rows []) => NoData
  | _ => FileNotFound csv_path
  end.

(** The tables once the source files of [items] are loaded, in order. *)
Definition loaded (fs : gmap string csv_content) (items : list (string * string))
    (tables : gmap string (list db_row)) : gmap string (list db_row) :=
  foldl (λ tables item, <[item.1 := table_rows (fs !! item.2)]> tables)
    tables items.

Definition reports (fs : gmap string csv_content) (items : list (string * string))
    : list line :=
  map (λ item, report item.2 (fs !! item.2)) items.

Definition loaded_count (fs : gmap string csv_content)
    (items : list (string * string)) : nat :=
  length (List.filter (λ item, has_rows (fs !! item.2)) items).

(** The line the artifact loop prints for an artifact, and the rows it
    counts for it. *)
Definition weather_line (weather_file : string * csv_content) : line :=
  match weather_file.2 with
  | Rows (first :: rest) => WeatherRows (length (first :: rest))
  | Rows [] => WeatherNoData
  | Unreadable e => WeatherError e
  end.

Definition artifact_count (weather_file : string * csv_content) : nat :=
  match weather_file.2 with
  | Rows rows => length rows
  | Unreadable _ => 0
  end.

(** The line printed when the condition holds. *)
Definition optional (condition : bool) (l : line) : list line :=
  if condition then [l] else [].

(** The slices the batch loop takes. *)
Definition batches (rows : list csv_row) : list (list csv_row) :=
  map (λ i, take batch_size (drop i rows)) (range_step (length rows) batch_size).

(** The report of an exception that ends [main]. *)
Definition fatal (e : exn) : line :=
  if decide (e = OperationalError) then DatabaseConnectionError e else Error e.

(** * Properties *)

(** ** Loops *)

Lemma for_each_app {S X} (body : S → X → result S) (s : S) (l1 l2 : list X) :
  for_each body s (l1 ++ l2) = (s' ← for_each body s l1; for_each body s' l2).
Proof.
  revert s. induction l1 as [|x l1 IH]; intros s; simpl; [done|].
  destruct (body s x) as [s'|e]; simpl; [apply IH|done].
Qed.

Lemma for_each_snoc {S X} (body : S → X → result S) (s : S) (l : list X) (x : X) :
  for_each body s (l ++ [x]) = (s' ← for_each body s l; body s' x).
Proof.
  rewrite for_each_app. destruct (for_each body s l) as [s'|e]; simpl; [|done].
  by destruct (body s' x).
Qed.

Lemma dict_mem_true {K V} `{EqDecision K} (k : K) (d : list (K * V)) :
  dict_mem k d = true ↔ ∃ v, (k, v) ∈ d.
Proof.
  unfold dict_mem. induction d as [|[k' v'] d IH]; simpl.
  - split; [done|]. intros [v Hv]. by apply elem_of_nil in Hv.
  - destruct (decide (k = k')) as [->|Hne].
    + split; [|done]. intros _. exists v'. apply list_elem_of_here.
    + rewrite IH. split; intros [v Hv]; exists v.
      * by apply list_elem_of_further.
      * apply elem_of_cons in Hv as [Heq|Hin]; [congruence|done].
Qed.

(** ** The outlet catalog *)

Section Catalog.

Variable py_int : string → option Z.
Variable py_float : string → option float.

Lemma load_outlets_row_cases outlets row outlets' :
  load_outlets_row py_int py_float outlets row = Ok outlets' →
  ∃ id lat lon,
    row_id py_int row = Ok id
    ∧ coordinate py_float row "latitude" = Ok lat
    ∧ coordinate py_float row "longitude" = Ok lon
    ∧ ((sentinel lat lon = true ∧ outlets' = outlets)
       ∨ (sentinel lat lon = false ∧ dict_mem id outlets = true
          ∧ outlets' = outlets)
       ∨ (sentinel lat lon = false ∧ dict_mem id outlets = false
          ∧ ∃ name, getitem row "name" = Ok name
              ∧ outlets' = outlets ++
                  [(id, {| o_id := id; o_name := name;
                           o_latitude := lat; o_longitude := lon |})])).
Proof.
  unfold load_outlets_row, row_id, sentinel.
  destruct (getitem row "id" ≫= int_of_cell py_int) as [id|e]; simpl; [|done].
  destruct (coordinate py_float row "latitude") as [lat|e]; simpl; [|done].
  destruct (coordinate py_float row "longitude") as [lon|e]; simpl; [|done].
  intros H. exists id, lat, lon. do 3 (split; [done|]).
  destruct (PrimFloat.eqb lat 0 && PrimFloat.eqb lon 0).
  - left. by inversion H.
  - right. destruct (dict_mem id outlets).
    + left. by inversion H.
    + right. destruct (getitem row "name") as [name|e]; simpl in H; [|done].
      inversion H. eauto.
Qed.

Lemma first_located_snoc_old rows row i o :
  (i < length rows)%nat →
  first_located py_int py_float (rows ++ [row]) i o ↔ first_located py_int py_float rows i o.
Proof.
  intros Hi. unfold first_located. split.
  - intros (r & Hr & Hloc & Hname & Hfirst). exists r.
    rewrite lookup_app_l in Hr by done. do 3 (split; [done|]).
    intros j r' la lo Hj Hr'. apply (Hfirst j r' la lo Hj).
    rewrite lookup_app_l by lia. done.
  - intros (r & Hr & Hloc & Hname & Hfirst). exists r.
    rewrite lookup_app_l by done. do 3 (split; [done|]).
    intros j r' la lo Hj Hr'. apply (Hfirst j r' la lo Hj).
    rewrite lookup_app_l in Hr' by lia. done.
Qed.

Lemma first_located_bound rows i o :
  first_located py_int py_float rows i o → (i < length rows)%nat.
Proof. intros (r & Hr & _). by apply lookup_lt_Some in Hr. Qed.

Lemma catalog_of_step rows outlets row outlets' :
  catalog_of py_int py_float rows outlets →
  load_outlets_row py_int py_float outlets row = Ok outlets' →
  catalog_of py_int py_float (rows ++ [row]) outlets'.
Proof.
  intros (Hnd & Hkey & Hiff & Hall) Hstep.
  apply load_outlets_row_cases in Hstep
    as (id & lat & lon & Hid & Hlat & Hlon & Hcases).
  assert (Hrow : ∀ k la lo, located py_int py_float row k la lo →
            k = id ∧ la = lat ∧ lo = lon ∧ sentinel lat lon = false).
  { intros k la lo (Hi & Hla & Hlo & Hs).
    assert (k = id) by congruence. assert (la = lat) by congruence.
    assert (lo = lon) by congruence. subst. done. }
  assert (Hlast : ∀ o, first_located py_int py_float (rows ++ [row]) (length rows) o →
            located py_int py_float row (o_id o) (o_latitude o) (o_longitude o)
            ∧ getitem row "name" = Ok (o_name o)).
  { intros o (r & Hr & Hloc & Hname & _).
    rewrite lookup_app_r, Nat.sub_diag in Hr by lia. simpl in Hr.
    by inversion Hr; subst r. }
  assert (Hold : ∀ o, (∃ i, first_located py_int py_float rows i o) →
            ∃ i, first_located py_int py_float (rows ++ [row]) i o).
  { intros o [i Hi]. exists i. apply first_located_snoc_old; [|done].
    by eapply first_located_bound. }
  assert (Hsplit : ∀ o i, first_located py_int py_float (rows ++ [row]) i o →
            first_located py_int py_float rows i o ∨ i = length rows).
  { intros o i Hi. destruct (decide (i < length rows)%nat) as [Hlt|Hge].
    - left. by apply first_located_snoc_old in Hi.
    - right. apply first_located_bound in Hi. rewrite length_app in Hi.
      simpl in Hi. lia. }
  destruct Hcases as [[Hs ->]|[(Hs & Hmem & ->)|(Hs & Hmem & name & Hname & ->)]].
  - (* the row is skipped for its location *)
    split; [done|]. split; [done|]. split.
    + intros o. rewrite Hiff. split; [apply Hold|].
      intros [i Hi]. destruct (Hsplit o i Hi) as [Hi'| ->]; [eauto|].
      apply Hlast in Hi as [Hloc _]. apply Hrow in Hloc as (_ & _ & _ & Hs'). congruence.
    + intros r k la lo Hin Hloc. apply elem_of_app in Hin as [Hin|Hin]; [eauto|].
      apply list_elem_of_singleton in Hin. subst r.
      apply Hrow in Hloc as (_ & _ & _ & Hs'). congruence.
  - (* the id is taken *)
    apply dict_mem_true in Hmem as [o' Ho'].
    split; [done|]. split; [done|]. split.
    + intros o. rewrite Hiff. split; [apply Hold|].
      intros [i Hi]. destruct (Hsplit o i Hi) as [Hi'| ->]; [eauto|].
      destruct Hi as (r & Hr & Hloc & _ & Hfirst).
      rewrite lookup_app_r, Nat.sub_diag in Hr by lia. simpl in Hr.
      inversion Hr; subst r. apply Hrow in Hloc as (Hoid & _).
      pose proof (Hkey _ _ Ho') as Hk. rewrite <- Hk in Ho'.
      apply Hiff in Ho' as [j (r & Hr' & Hloc & _)].
      exfalso. apply (Hfirst j r (o_latitude o') (o_longitude o')).
      * by apply lookup_lt_Some in Hr'.
      * rewrite lookup_app_l; [done|]. by apply lookup_lt_Some in Hr'.
      * by rewrite Hoid, <- Hk.
    + intros r k la lo Hin Hloc. apply elem_of_app in Hin as [Hin|Hin]; [eauto|].
      apply list_elem_of_singleton in Hin. subst r.
      apply Hrow in Hloc as (-> & _). eauto.
  - (* a new outlet *)
    set (new := {| o_id := id; o_name := name;
                   o_latitude := lat; o_longitude := lon |}).
    assert (Hfresh : ∀ o, (id, o) ∉ outlets).
    { intros o Ho. assert (dict_mem id outlets = true) as Ht
        by (apply dict_mem_true; eauto). congruence. }
    split; [|split; [|split]].
    + unfold dict_keys. rewrite map_app. simpl. apply NoDup_app.
      split; [done|]. split; [|apply NoDup_singleton].
      intros k Hk Hk'. apply list_elem_of_singleton in Hk'. subst k.
      apply list_elem_of_fmap in Hk as [[k o] [Heq Hin]]. simpl in Heq. subst k.
      by apply (Hfresh o).
    + intros k o Hin. apply elem_of_app in Hin as [Hin|Hin]; [by apply Hkey|].
      apply list_elem_of_singleton in Hin. by inversion Hin.
    + intros o. rewrite elem_of_app, list_elem_of_singleton. split.
      * intros [Hin|Heq]; [apply Hold; by apply Hiff|].
        inversion Heq as [[Hoid Ho]]. exists (length rows), row.
        rewrite lookup_app_r, Nat.sub_diag by lia. simpl.
        split; [done|]. split; [by repeat split|]. split; [done|].
        intros j r la lo Hj Hr Hloc.
        rewrite lookup_app_l in Hr by done.
        destruct (Hall r id la lo) as [o' Ho'];
          [by eapply list_elem_of_lookup_2|done|].
        by apply (Hfresh o').
      * intros [i Hi]. destruct (Hsplit o i Hi) as [Hi'| ->].
        { left. apply Hiff. eauto. }
        right. apply Hlast in Hi as [Hloc Hn].
        apply Hrow in Hloc as (Hoid & Hla & Hlo & _).
        destruct o as [oid oname ola olo]. simpl in *. subst.
        unfold new. congruence.
    + intros r k la lo Hin Hloc. apply elem_of_app in Hin as [Hin|Hin].
      * destruct (Hall r k la lo Hin Hloc) as [o Ho]. exists o.
        apply elem_of_app. by left.
      * apply list_elem_of_singleton in Hin. subst r.
        apply Hrow in Hloc as (-> & _). exists new.
        apply elem_of_app. right. by apply list_elem_of_singleton.
Qed.

Lemma catalog_of_loop rows outlets rest outlets' :
  catalog_of py_int py_float rows outlets →
  for_each (load_outlets_row py_int py_float) outlets rest = Ok outlets' →
  catalog_of py_int py_float (rows ++ rest) outlets'.
Proof.
  revert rows outlets. induction rest as [|row rest IH]; intros rows outlets Hinv.
  - simpl. intros [= <-]. by rewrite app_nil_r.
  - simpl. destruct (load_outlets_row py_int py_float outlets row)
      as [outlets1|e] eqn:Hrow; simpl; [|done].
    intros Hrest. replace (rows ++ row :: rest) with ((rows ++ [row]) ++ rest)
      by (by rewrite <- app_assoc).
    eapply IH; [|done]. by eapply catalog_of_step.
Qed.

Lemma catalog_of_nil : catalog_of py_int py_float [] [].
Proof.
  split; [apply NoDup_nil_2|]. split; [by intros k o Hin%elem_of_nil|]. split.
  - intros o. split; [by intros Hin%elem_of_nil|].
    intros [i (r & Hr & _)]. by rewrite lookup_nil in Hr.
  - by intros r id la lo Hin%elem_of_nil.
Qed.

(** What [load_outlets] returns on a readable catalog: one outlet per
    id, and exactly the outlets built from the first located py_int py_float row of
    their id. *)
Lemma load_outlets_catalog fs csv_path rows outs :
  fs !! csv_path = Some (Rows rows) →
  load_outlets py_int py_float fs csv_path = Ok outs →
  NoDup (map o_id outs) ∧ ∀ o, o ∈ outs ↔ ∃ i, first_located py_int py_float rows i o.
Proof.
  unfold load_outlets. intros ->.
  destruct (for_each (load_outlets_row py_int py_float) [] rows)
    as [outlets|e] eqn:Hloop; simpl; [|done].
  intros [= <-].
  apply (catalog_of_loop [] [] rows outlets catalog_of_nil) in Hloop.
  simpl in Hloop. destruct Hloop as (Hnd & Hkey & Hiff & _).
  assert (Hids : map o_id (dict_values outlets) = dict_keys outlets).
  { unfold dict_values, dict_keys. rewrite map_map. apply map_ext_in.
    intros [k o] Hin. simpl. apply Hkey. by apply list_elem_of_In. }
  split; [by rewrite Hids|].
  intros o. rewrite <- Hiff. unfold dict_values. split.
  - intros Hin. apply list_elem_of_fmap in Hin as [[k o'] [-> Hin]]. simpl.
    by rewrite (Hkey _ _ Hin).
  - intros Hin. apply list_elem_of_fmap. by exists (o_id o, o).
Qed.

Lemma load_outlets_loop_total rows outlets :
  (∀ row, row ∈ rows → well_formed_row py_int py_float row) →
  ∃ outlets', for_each (load_outlets_row py_int py_float) outlets rows = Ok outlets'.
Proof.
  revert outlets. induction rows as [|row rows IH]; intros outlets Hrows.
  - by eexists.
  - destruct (Hrows row) as (id & lat & lon & name & Hid & Hlat & Hlon & Hname);
      [left|].
    assert (∃ outlets1, load_outlets_row py_int py_float outlets row = Ok outlets1)
      as [outlets1 Hrow].
    { unfold load_outlets_row. unfold row_id in Hid. rewrite Hid. simpl.
      rewrite Hlat. simpl. rewrite Hlon. simpl.
      destruct (PrimFloat.eqb lat 0 && PrimFloat.eqb lon 0); [by eexists|].
      destruct (dict_mem id outlets); [by eexists|].
      rewrite Hname. by eexists. }
    destruct (IH outlets1) as [outlets' Hloop];
      [intros r Hr; apply Hrows; by right|].
    exists outlets'. simpl. by rewrite Hrow.
Qed.

Lemma load_outlets_total fs csv_path rows :
  fs !! csv_path = Some (Rows rows) →
  (∀ row, row ∈ rows → well_formed_row py_int py_float row) →
  ∃ outs, load_outlets py_int py_float fs csv_path = Ok outs.
Proof.
  intros Hfs Hrows. unfold load_outlets. rewrite Hfs.
  destruct (load_outlets_loop_total rows [] Hrows) as [outlets ->]. by eexists.
Qed.

End Catalog.

(** C2, as stated, fails: the first row bearing id 1 has the sentinel
    location, is skipped, and the outlet kept for id 1 is built from the
    second row. *)
Lemma first_row_wins_fails_after_sentinel :
  let rows := [catalog_row "1" "A" "0.0" "0.0"; catalog_row "1" "B" "41.0" "-76.0"] in
  let kept := [{| o_id := 1; o_name := CStr "B";
                  o_latitude := 41; o_longitude := -76 |}] in
  load_outlets Py.int Py.float {["csv_data/outlet.csv" := Rows rows]}
    "csv_data/outlet.csv" = Ok kept
  ∧ ¬ first_row_wins Py.int Py.float rows kept.
Proof.
  split; [by vm_compute|].
  intros Hclaim.
  destruct (Hclaim 0%nat 1%nat (catalog_row "1" "A" "0.0" "0.0")
              (catalog_row "1" "B" "41.0" "-76.0") 1%Z)
    as (o & Hkept & Hname & _); try done.
  - intros j r Hj. lia.
  - vm_compute in Hkept. injection Hkept as <-. vm_compute in Hname. discriminate.
Qed.

(** C2 (amended): on a readable catalog, [load_outlets] keeps one outlet
    per id, and the outlet kept for an id is the one built from the first
    row that bears the id and has a located (non-sentinel) position; it
    returns whenever every row has its columns and parses.  In
    particular the catalog (1, A, 40.0, -75.0), (1, B, 41.0, -76.0) loads
    as the single outlet (1, A, 40.0, -75.0). *)
Theorem load_outlets_first_located_wins (py_int : string → option Z)
    (py_float : string → option float) (fs : gmap string csv_content)
    (csv_path : string) (rows : list csv_row) :
  fs !! csv_path = Some (Rows rows) →
  (∀ outs, load_outlets py_int py_float fs csv_path = Ok outs →
     NoDup (map o_id outs)
     ∧ ∀ o, o ∈ outs ↔ ∃ i, first_located py_int py_float rows i o)
  ∧ ((∀ row, row ∈ rows → well_formed_row py_int py_float row) →
     ∃ outs, load_outlets py_int py_float fs csv_path = Ok outs)
  ∧ (rows = [catalog_row "1" "A" "40.0" "-75.0";
             catalog_row "1" "B" "41.0" "-76.0"] →
     py_int "1" = Some 1%Z →
     py_float "40.0" = Some 40%float → py_float "-75.0" = Some (-75)%float →
     py_float "41.0" = Some 41%float → py_float "-76.0" = Some (-76)%float →
     load_outlets py_int py_float fs csv_path
     = Ok [{| o_id := 1; o_name := CStr "A";
              o_latitude := 40; o_longitude := -75 |}]).
Proof.
  intros Hfs. split; [|split].
  - intros outs Hload. by eapply load_outlets_catalog.
  - intros Hrows. by eapply load_outlets_total.
  - intros -> Hid H40 H75 H41 H76. unfold load_outlets. rewrite Hfs.
    cbv. rewrite Hid, H40, H75. cbv. rewrite H41, H76. reflexivity.
Qed.

Lemma load_outlets_first_located_wins_witness :
  load_outlets Py.int Py.float
    {["csv_data/outlet.csv" := Rows [catalog_row "1" "A" "40.0" "-75.0";
                                     catalog_row "1" "B" "41.0" "-76.0"]]}
    "csv_data/outlet.csv"
  = Ok [{| o_id := 1; o_name := CStr "A"; o_latitude := 40; o_longitude := -75 |}].
Proof.
  apply (load_outlets_first_located_wins Py.int Py.float
           {["csv_data/outlet.csv" := Rows [catalog_row "1" "A" "40.0" "-75.0";
                                            catalog_row "1" "B" "41.0" "-76.0"]]}
           "csv_data/outlet.csv"
           [catalog_row "1" "A" "40.0" "-75.0"; catalog_row "1" "B" "41.0" "-76.0"]);
    reflexivity.
Defined.

(** C7: a catalog row whose latitude and longitude both parse to a value
    equal to 0.0 (an empty string counting as 0.0) contributes no outlet:
    no outlet of the loaded catalog has the sentinel location, so the
    outlet such a row describes is absent. *)
Theorem load_outlets_excludes_sentinel (py_int : string → option Z)
    (py_float : string → option float) (fs : gmap string csv_content)
    (csv_path : string) (rows : list csv_row) (outs : list outlet) :
  fs !! csv_path = Some (Rows rows) →
  load_outlets py_int py_float fs csv_path = Ok outs →
  (∀ o, o ∈ outs → sentinel (o_latitude o) (o_longitude o) = false)
  ∧ (∀ row id name lat lon,
       row ∈ rows →
       row_id py_int row = Ok id → getitem row "name" = Ok name →
       coordinate py_float row "latitude" = Ok lat →
       coordinate py_float row "longitude" = Ok lon →
       PrimFloat.eqb lat 0 = true → PrimFloat.eqb lon 0 = true →
       {| o_id := id; o_name := name; o_latitude := lat; o_longitude := lon |}
       ∉ outs)
  ∧ (∀ row key,
       getitem row key = Ok (CStr "") → coordinate py_float row key = Ok 0%float).
Proof.
  intros Hfs Hload.
  destruct (load_outlets_catalog py_int py_float fs csv_path rows outs Hfs Hload)
    as [_ Hiff].
  assert (Hloc : ∀ o, o ∈ outs → sentinel (o_latitude o) (o_longitude o) = false).
  { intros o Hin. apply Hiff in Hin as [i (r & _ & (_ & _ & _ & Hs) & _)]. done. }
  split; [done|]. split.
  - intros row id name lat lon _ _ _ _ _ Hlat Hlon Hin.
    apply Hloc in Hin. unfold sentinel in Hin. simpl in Hin.
    rewrite Hlat, Hlon in Hin. done.
  - intros row key Hget. unfold coordinate. rewrite Hget. reflexivity.
Qed.

Lemma load_outlets_excludes_sentinel_witness :
  ({| o_id := 7; o_name := CStr "Depot"; o_latitude := 0; o_longitude := -0 |}
   ∉ [{| o_id := 8; o_name := CStr "Quay"; o_latitude := 40; o_longitude := -75 |}])
  ∧ coordinate Py.float (catalog_row "7" "Depot" "" "-0.0") "latitude" = Ok 0%float.
Proof.
  pose proof (load_outlets_excludes_sentinel Py.int Py.float
    {["csv_data/outlet.csv" := Rows [catalog_row "7" "Depot" "" "-0.0";
                                     catalog_row "8" "Quay" "40.0" "-75.0"]]}
    "csv_data/outlet.csv"
    [catalog_row "7" "Depot" "" "-0.0"; catalog_row "8" "Quay" "40.0" "-75.0"]
    [{| o_id := 8; o_name := CStr "Quay"; o_latitude := 40; o_longitude := -75 |}]
    eq_refl eq_refl) as (_ & Habsent & Hempty).
  split.
  - apply (Habsent (catalog_row "7" "Depot" "" "-0.0")); try reflexivity.
    apply list_elem_of_here.
  - apply Hempty. reflexivity.
Defined.

(** C10: the sentinel test comes before deduplication.  When the first
    row bearing an id has latitude and longitude equal to 0.0 it is
    skipped without taking the id, and the first later row of that id with
    a located position is the one the catalog keeps. *)
Theorem sentinel_row_does_not_take_id (py_int : string → option Z)
    (py_float : string → option float) (fs : gmap string csv_content)
    (csv_path : string) (rows : list csv_row) (outs : list outlet)
    (i j : nat) (first later : csv_row) (id : Z) (lat0 lon0 lat lon : float)
    (name : cell) :
  fs !! csv_path = Some (Rows rows) →
  load_outlets py_int py_float fs csv_path = Ok outs →
  rows !! i = Some first → row_id py_int first = Ok id →
  (∀ k r, (k < i)%nat → rows !! k = Some r → row_id py_int r ≠ Ok id) →
  coordinate py_float first "latitude" = Ok lat0 →
  coordinate py_float first "longitude" = Ok lon0 →
  PrimFloat.eqb lat0 0 = true → PrimFloat.eqb lon0 0 = true →
  (i < j)%nat → rows !! j = Some later →
  located py_int py_float later id lat lon →
  getitem later "name" = Ok name →
  (∀ k r la lo, (i < k < j)%nat → rows !! k = Some r →
     ¬ located py_int py_float r id la lo) →
  ({| o_id := id; o_name := name; o_latitude := lat; o_longitude := lon |} ∈ outs)
  ∧ ∀ o, o ∈ outs → o_id o = id →
      o = {| o_id := id; o_name := name; o_latitude := lat; o_longitude := lon |}.
Proof.
  intros Hfs Hload Hfirst Hid Hbefore Hlat0 Hlon0 Hz1 Hz2 Hij Hlater Hloc Hname
    Hbetween.
  destruct (load_outlets_catalog py_int py_float fs csv_path rows outs Hfs Hload)
    as [Hnd Hiff].
  set (kept := {| o_id := id; o_name := name;
                  o_latitude := lat; o_longitude := lon |}).
  assert (Hkept : kept ∈ outs).
  { apply Hiff. exists j, later. do 3 (split; [done|]).
    intros k r la lo Hk Hr (Hrid & Hla & Hlo & Hs). simpl in *.
    destruct (Nat.lt_trichotomy k i) as [Hlt|[->|Hgt]].
    - by apply (Hbefore k r Hlt Hr).
    - rewrite Hfirst in Hr. inversion Hr; subst r.
      assert (la = lat0) by congruence. assert (lo = lon0) by congruence. subst.
      unfold sentinel in Hs. rewrite Hz1, Hz2 in Hs. done.
    - apply (Hbetween k r la lo); [lia|done|]. by repeat split. }
  split; [done|].
  intros o Hin Hoid.
  apply list_elem_of_lookup in Hin as [a Ha]. apply list_elem_of_lookup in Hkept as [b Hb].
  assert (a = b) as ->.
  { eapply NoDup_lookup; [exact Hnd| |].
    - rewrite list_lookup_fmap, Ha. simpl. by rewrite Hoid.
    - rewrite list_lookup_fmap, Hb. done. }
  congruence.
Qed.

Lemma sentinel_row_does_not_take_id_witness :
  ({| o_id := 1; o_name := CStr "B"; o_latitude := 41; o_longitude := -76 |}
   ∈ [{| o_id := 1; o_name := CStr "B"; o_latitude := 41; o_longitude := -76 |}])
  ∧ ∀ o, o ∈ [{| o_id := 1; o_name := CStr "B";
                 o_latitude := 41; o_longitude := -76 |}] →
      o_id o = 1%Z →
      o = {| o_id := 1; o_name := CStr "B"; o_latitude := 41; o_longitude := -76 |}.
Proof.
  apply (sentinel_row_does_not_take_id Py.int Py.float
    {["csv_data/outlet.csv" := Rows [catalog_row "1" "A" "0.0" "";
                                     catalog_row "1" "B" "41.0" "-76.0"]]}
    "csv_data/outlet.csv"
    [catalog_row "1" "A" "0.0" ""; catalog_row "1" "B" "41.0" "-76.0"]
    [{| o_id := 1; o_name := CStr "B"; o_latitude := 41; o_longitude := -76 |}]
    0%nat 1%nat (catalog_row "1" "A" "0.0" "") (catalog_row "1" "B" "41.0" "-76.0")
    1%Z 0%float 0%float 41%float (-76)%float (CStr "B"));
    try reflexivity.
  - intros k r Hk. lia.
  - lia.
  - by repeat split.
  - intros k r la lo Hk. lia.
Defined.

(** ** The window filter *)

Section Window.

Variable fromisoformat : string → option pydatetime.
Variable outlet : outlet.
Variables start_date end_date : datetime.
Variable h : hourly_data.

Let times := get_or_empty (h_time h).

(** The guard keeps the index in range: no [IndexError]. *)
Lemma index_or_none_value (a : option (list pyval)) (i : nat) :
  index_or_none (get_or_empty a) i = Ok (value_at a i).
Proof.
  unfold index_or_none, value_at, list_index.
  destruct (Nat.ltb_spec i (length (get_or_empty a))) as [Hlt|Hge].
  - destruct (lookup_lt_is_Some_2 _ _ Hlt) as [v ->]. done.
  - by rewrite (lookup_ge_None_2 _ _ Hge).
Qed.

Lemma between_naive (t : datetime) :
  between start_date (Naive t) end_date = Ok (dt_le start_date t && dt_le t end_date).
Proof. unfold between. simpl. by destruct (dt_le start_date t). Qed.

Lemma parse_weather_index_outcome (records : list weather_record) (i : nat) :
  (i < length times)%nat →
  parse_weather_index fromisoformat times
    (get_or_empty (h_wind_speed_10m h)) (get_or_empty (h_temperature_2m h))
    (get_or_empty (h_relative_humidity_2m h)) outlet start_date end_date records i
  = if aware_at fromisoformat h i then Raise TypeError
    else Ok (if accepted fromisoformat start_date end_date h i then records ++ [record_at outlet h i] else records).
Proof.
  intros Hi. unfold parse_weather_index, aware_at, accepted.
  assert (Htime : list_index times i = Ok (value_at (h_time h) i)).
  { unfold list_index, value_at. fold times.
    destruct (lookup_lt_is_Some_2 _ _ Hi) as [v ->]. done. }
  rewrite Htime. simpl.
  destruct (value_at (h_time h) i) as [| | | |s| |] eqn:Hv; simpl; try done.
  destruct (fromisoformat (remove_char "Z" s)) as [[t|t off]|]; simpl; try done.
  rewrite between_naive. simpl.
  destruct (dt_le start_date t && dt_le t end_date); simpl; [|done].
  rewrite !index_or_none_value. simpl.
  unfold record_at. by rewrite Hv.
Qed.

Lemma parse_weather_loop (records : list weather_record) (indices : list nat) :
  (∀ i, i ∈ indices → (i < length times)%nat) →
  for_each
    (parse_weather_index fromisoformat times
       (get_or_empty (h_wind_speed_10m h)) (get_or_empty (h_temperature_2m h))
       (get_or_empty (h_relative_humidity_2m h)) outlet start_date end_date)
    records indices
  = if existsb (aware_at fromisoformat h) indices then Raise TypeError
    else Ok (records ++ map (record_at outlet h) (List.filter (accepted fromisoformat start_date end_date h) indices)).
Proof.
  revert records. induction indices as [|i indices IH]; intros records Hin.
  - simpl. by rewrite app_nil_r.
  - simpl. rewrite parse_weather_index_outcome by (apply Hin; left).
    destruct (aware_at fromisoformat h i); simpl; [done|].
    rewrite IH by (intros k Hk; apply Hin; by right).
    destruct (existsb (aware_at fromisoformat h) indices); [done|].
    destruct (accepted fromisoformat start_date end_date h i); simpl; [|done]. by rewrite <- app_assoc.
Qed.

(** The outcome of [parse_weather_data] on a response with an [hourly]
    member: [TypeError] when some timestamp parses to an aware datetime,
    else the records of the accepted indices in order. *)
Lemma parse_weather_data_outcome :
  parse_weather_data fromisoformat (Some {| hourly := Some h |}) outlet
    start_date end_date
  = if existsb (aware_at fromisoformat h) (seq 0 (length times)) then Raise TypeError
    else Ok (map (record_at outlet h) (List.filter (accepted fromisoformat start_date end_date h) (seq 0 (length times)))).
Proof.
  unfold parse_weather_data. simpl. fold times.
  rewrite parse_weather_loop; [done|].
  intros i Hi. apply elem_of_seq in Hi. lia.
Qed.

Lemma no_aware_timestamp :
  (∀ v, v ∈ times → parses_aware fromisoformat v = false) →
  existsb (aware_at fromisoformat h) (seq 0 (length times)) = false.
Proof.
  intros Hnaive. apply not_true_is_false. intros Hex.
  apply existsb_exists in Hex as (i & Hi & Haware).
  apply in_seq in Hi. unfold aware_at, value_at in Haware. fold times in Haware.
  destruct (lookup_lt_is_Some_2 times i) as [v Hv]; [lia|].
  rewrite Hv in Haware. simpl in Haware.
  rewrite (Hnaive v) in Haware; [done|]. by eapply list_elem_of_lookup_2.
Qed.

End Window.





Lemma reads_value_at (a : option (list pyval)) (i : nat) : reads a i (value_at a i).
Proof.
  unfold reads, value_at. split.
  - by intros x ->.
  - intros Hge. by rewrite (lookup_ge_None_2 _ _ Hge).
Qed.



(** ** The sink *)

Lemma sink_bind_ok {A B} (m : sink A) (f : A → sink B) (s s1 : session) (a : A) :
  m s = (Ok a, s1) → (m ≫= f) s = f a s1.
Proof. intros H. unfold mbind, sink_bind. by rewrite H. Qed.

Lemma sink_bind_raise {A B} (m : sink A) (f : A → sink B) (s s1 : session) (e : exn) :
  m s = (Raise e, s1) → (m ≫= f) s = (Raise e, s1).
Proof. intros H. unfold mbind, sink_bind. by rewrite H. Qed.

Lemma sink_bind_inv {A B} (m : sink A) (f : A → sink B) (s s' : session) (b : B) :
  (m ≫= f) s = (Ok b, s') → ∃ a s1, m s = (Ok a, s1) ∧ f a s1 = (Ok b, s').
Proof.
  unfold mbind, sink_bind. destruct (m s) as [[a|e] s1]; [eauto|done].
Qed.

Lemma serve_inv (s s' : session) (u : unit) :
  serve s = (Ok u, s') →
  committed s' = committed s ∧ working s' = working s ∧ stdout s' = stdout s.
Proof.
  destruct u. unfold serve. destruct (healthy s) as [[|n]|]; intros [= <-]; done.
Qed.

Lemma run_statement_inv (sql : statement) (values : list (list cell))
    (s s' : session) (u : unit) :
  run_statement sql values s = (Ok u, s') →
  apply_statement sql values (working s) = Ok (working s')
  ∧ committed s' = committed s ∧ stdout s' = stdout s.
Proof.
  unfold run_statement. intros H. apply sink_bind_inv in H as (? & s1 & Hs & H).
  apply serve_inv in Hs as (Hc & Hw & Ho). rewrite <- Hw, <- Hc, <- Ho.
  destruct u. destruct (apply_statement sql values (working s1)); [|done].
  by injection H as <-.
Qed.

Lemma commit_inv (s s' : session) (u : unit) :
  commit s = (Ok u, s') →
  committed s' = working s ∧ working s' = working s ∧ stdout s' = stdout s.
Proof.
  unfold commit. intros H. apply sink_bind_inv in H as (? & s1 & Hs & H).
  apply serve_inv in Hs as (Hc & Hw & Ho). destruct u. injection H as <-. simpl.
  by rewrite Hw, Ho.
Qed.

Lemma print_eq (l : line) (s : session) :
  print l s = (Ok (), {| committed := committed s; working := working s;
                         healthy := healthy s; stdout := stdout s ++ [l] |}).
Proof. done. Qed.

Lemma serve_reliable (s : session) : healthy s = None → serve s = (Ok (), s).
Proof. unfold serve. by intros ->. Qed.

Lemma run_statement_reliable (sql : statement) (values : list (list cell))
    (s : session) (tables : gmap string (list db_row)) :
  healthy s = None →
  apply_statement sql values (working s) = Ok tables →
  run_statement sql values s
  = (Ok (), {| committed := committed s; working := tables;
               healthy := None; stdout := stdout s |}).
Proof.
  intros Hh Happ. unfold run_statement.
  rewrite (sink_bind_ok _ _ _ _ _ (serve_reliable s Hh)). by rewrite Happ, Hh.
Qed.

Lemma commit_reliable (s : session) :
  healthy s = None →
  commit s = (Ok (), {| committed := working s; working := working s;
                        healthy := None; stdout := stdout s |}).
Proof.
  intros Hh. unfold commit.
  rewrite (sink_bind_ok _ _ _ _ _ (serve_reliable s Hh)). by rewrite Hh.
Qed.

Lemma serve_exhausted (s : session) :
  healthy s = Some 0%nat → serve s = (Raise OperationalError, s).
Proof. unfold serve. by intros ->. Qed.

Lemma create_then_truncate (table : string) (columns : list (ident * sqltype))
    (tables created : gmap string (list db_row)) :
  apply_statement (CreateTableIfNotExists table columns) [] tables = Ok created →
  apply_statement (TruncateTable table) [] created = Ok (emptied table tables).
Proof.
  unfold apply_statement, emptied. destruct (tables !! table) eqn:Ht.
  - intros [= <-]. by rewrite Ht.
  - intros [= <-]. rewrite lookup_insert_eq. by rewrite insert_insert_eq.
Qed.

Lemma create_total (table : string) (columns : list (ident * sqltype))
    (tables : gmap string (list db_row)) :
  ∃ created, apply_statement (CreateTableIfNotExists table columns) [] tables
             = Ok created.
Proof. unfold apply_statement. destruct (tables !! table); eauto. Qed.

Lemma get_table_schema_listed (table_name : string) :
  table_name ∈ dict_keys CSV_FILES →
  table_name ≠ "weather"
  ∧ ∃ columns, get_table_schema table_name
               = Some (CreateTableIfNotExists table_name columns).
Proof.
  intros Hin. apply list_elem_of_In in Hin. simpl in Hin.
  repeat (destruct Hin as [<-|Hin]; [split; [done|by eexists]|]). done.
Qed.

(** ** Loading one table *)

(** When [load_csv_to_table] returns [False], the source file is missing
    or has no rows, and the table was created, truncated and committed
    before that was found out. *)
Lemma load_csv_to_table_false (fs : gmap string csv_content)
    (table_name csv_path : string) (s s' : session) :
  load_csv_to_table fs table_name csv_path s = (Ok false, s') →
  (fs !! csv_path = None ∨ fs !! csv_path = Some (Rows []))
  ∧ committed s' !! table_name = Some []
  ∧ working s' !! table_name = Some [].
Proof.
  unfold load_csv_to_table. intros H.
  apply sink_bind_inv in H as (? & s1 & _ & H).
  apply sink_bind_inv in H as (? & s2 & _ & H).
  apply sink_bind_inv in H as (? & s3 & Htrunc & H).
  apply sink_bind_inv in H as (? & s4 & Hcommit & H).
  apply run_statement_inv in Htrunc as (Happ & _).
  apply commit_inv in Hcommit as (Hc4 & Hw4 & _).
  assert (Hempty : working s3 !! table_name = Some []).
  { unfold apply_statement in Happ. destruct (working s2 !! table_name); [|done].
    injection Happ as <-. apply lookup_insert_eq. }
  destruct (fs !! csv_path) as [[rows|e]|]; [destruct rows as [|first rest]| |].
  - rewrite (sink_bind_ok _ _ _ _ _ (print_eq _ _)) in H. injection H as <-. simpl.
    rewrite Hc4, Hw4. eauto.
  - apply sink_bind_inv in H as (? & ? & _ & H).
    apply sink_bind_inv in H as (? & ? & _ & H).
    apply sink_bind_inv in H as (? & ? & _ & H). done.
  - done.
  - rewrite (sink_bind_ok _ _ _ _ _ (print_eq _ _)) in H. injection H as <-. simpl.
    rewrite Hc4, Hw4. eauto.
Qed.

(** On a connection that serves them, the four statements that open
    [load_csv_to_table] leave the table created and empty. *)
Lemma load_csv_to_table_opening (fs : gmap string csv_content)
    (table_name csv_path : string) (columns : list (ident * sqltype))
    (s : session) :
  healthy s = None →
  get_table_schema table_name = Some (CreateTableIfNotExists table_name columns) →
  load_csv_to_table fs table_name csv_path s
  = (match fs !! csv_path with
     | None => _ ← print (FileNotFound csv_path); mret false
     | Some (Unreadable e) => raise e
     | Some (Rows rows) =>
         match rows with
         | [] => _ ← print NoData; mret false
         | first :: _ =>
             let columns := dict_keys first in
             column_names ← lift (join_names (map quote_reserved columns));
             let insert_sql := InsertInto table_name column_names in
             _ ← insert_batches insert_sql columns rows;
             _ ← print (RowsLoaded (length rows));
             mret true
         end
     end)
      {| committed := emptied table_name (working s);
         working := emptied table_name (working s);
         healthy := None; stdout := stdout s |}.
Proof.
  intros Hh Hschema. unfold load_csv_to_table. rewrite Hschema. unfold execute.
  destruct (create_total table_name columns (working s)) as [created Hcreate].
  erewrite sink_bind_ok; [|by apply run_statement_reliable].
  erewrite sink_bind_ok; [|by apply commit_reliable].
  erewrite sink_bind_ok;
    [|apply run_statement_reliable; [done|by eapply create_then_truncate]].
  erewrite sink_bind_ok; [|by apply commit_reliable]. done.
Qed.

(** C9: [load_csv_to_table] creates and truncates the table, and commits,
    before it looks at the source file: whenever it returns [False] (the
    file missing or without rows) the table is empty, whatever it held
    before. *)
Theorem failed_load_leaves_table_empty (fs : gmap string csv_content)
    (table_name csv_path : string) (s s' : session) :
  load_csv_to_table fs table_name csv_path s = (Ok false, s') →
  committed s' !! table_name = Some [] ∧ working s' !! table_name = Some [].
Proof. intros H. by apply load_csv_to_table_false in H as (_ & ? & ?). Qed.

Lemma failed_load_leaves_table_empty_witness :
  committed (load_csv_to_table ∅ "org" "csv_data/org.csv" org_session).2 !! "org"
  = Some []
  ∧ working (load_csv_to_table ∅ "org" "csv_data/org.csv" org_session).2 !! "org"
    = Some [].
Proof.
  apply (failed_load_leaves_table_empty ∅ "org" "csv_data/org.csv" org_session).
  reflexivity.
Defined.

Lemma load_csv_to_table_served (fs : gmap string csv_content)
    (table_name csv_path : string) (columns : list (ident * sqltype))
    (s : session) :
  serves 4 s →
  get_table_schema table_name = Some (CreateTableIfNotExists table_name columns) →
  (fs !! csv_path = None ∨ fs !! csv_path = Some (Rows []) →
   (load_csv_to_table fs table_name csv_path s).1 = Ok false)
  ∧ ∀ e, fs !! csv_path = Some (Unreadable e) →
      (load_csv_to_table fs table_name csv_path s).1 = Raise e.
Proof.
  unfold serves. intros Hserves Hschema.
  destruct (healthy s) as [n|] eqn:Hh.
  - destruct n as [|[|[|[|n]]]]; try lia.
    unfold load_csv_to_table. rewrite Hschema.
    unfold execute, run_statement, commit, serve, mbind, sink_bind. simpl.
    rewrite Hh. simpl.
    destruct (working s !! table_name) eqn:Ht; simpl.
    + rewrite Ht. simpl. split; [by intros [-> | ->]|by intros e ->].
    + rewrite lookup_insert_eq. simpl. split; [by intros [-> | ->]|by intros e ->].
  - rewrite (load_csv_to_table_opening _ _ _ columns s Hh Hschema).
    split; [by intros [-> | ->]|by intros e ->].
Qed.

Lemma load_csv_to_table_exhausted (fs : gmap string csv_content)
    (table_name csv_path : string) (columns : list (ident * sqltype))
    (s : session) :
  ¬ serves 4 s →
  get_table_schema table_name = Some (CreateTableIfNotExists table_name columns) →
  (load_csv_to_table fs table_name csv_path s).1 = Raise OperationalError.
Proof.
  unfold serves. intros Hserves Hschema.
  destruct (healthy s) as [n|] eqn:Hh; [|done].
  unfold load_csv_to_table. rewrite Hschema.
  unfold execute, run_statement, commit, serve, mbind, sink_bind. simpl.
  rewrite Hh.
  destruct n as [|[|[|[|n]]]]; [| | | |lia]; simpl;
    destruct (working s !! table_name) eqn:Ht; simpl;
    rewrite ?Ht, ?lookup_insert_eq; done.
Qed.



(** ** Batched inserts *)

Lemma join_names_map (f : option string → option ident) (g : string → ident)
    (columns : list (option string)) :
  (∀ name, f (Some name) = Some (g name)) →
  forallb named columns = true →
  join_names (map f columns) = Ok (map (λ col, g (column_name col)) columns).
Proof.
  intros Hf. induction columns as [|[name|] columns IH]; simpl; [done| |done].
  intros Hall. rewrite Hf, IH by done. done.
Qed.

Lemma row_values_cells (columns : list (option string)) (row : csv_row) :
  has_columns columns row = true → row_values columns row = Ok (cells columns row).
Proof.
  unfold has_columns, dict_mem. induction columns as [|col columns IH]; simpl; [done|].
  intros Hall. apply andb_true_iff in Hall as [Hcol Hall].
  destruct (dict_get col row); [|done]. by rewrite IH.
Qed.

Lemma batch_values_cells (columns : list (option string)) (batch : list csv_row) :
  forallb (has_columns columns) batch = true →
  batch_values columns batch = Ok (map (cells columns) batch).
Proof.
  induction batch as [|row batch IH]; simpl; [done|].
  intros Hall. apply andb_true_iff in Hall as [Hrow Hall].
  by rewrite row_values_cells, IH.
Qed.

Lemma forallb_take_drop {A} (p : A → bool) (l : list A) (n i : nat) :
  forallb p l = true → forallb p (take n (drop i l)) = true.
Proof.
  intros Hall. apply forallb_forall. intros x Hx.
  apply (proj1 (forallb_forall p l) Hall).
  apply list_elem_of_In. apply list_elem_of_In in Hx.
  eapply (subseteq_drop i l). by eapply (subseteq_take n).
Qed.

Lemma batches_cover (n b : nat) : (0 < b)%nat → (n ≤ (n + b - 1) / b * b)%nat.
Proof.
  intros Hb. pose proof (Nat.div_mod_eq (n + b - 1) b) as Hdm.
  pose proof (Nat.mod_upper_bound (n + b - 1) b ltac:(lia)). nia.
Qed.

Lemma apply_insert (table : string) (column_names : list ident)
    (columns : list (option string)) (batch : list csv_row)
    (tables : gmap string (list db_row)) (old : list db_row) :
  tables !! table = Some old →
  apply_statement (InsertInto table column_names) (map (cells columns) batch) tables
  = Ok (<[table := old ++ inserted column_names columns batch]> tables).
Proof.
  intros Hold. unfold apply_statement. rewrite Hold. unfold inserted.
  by rewrite map_map.
Qed.

Section Batches.

Variable table : string.
Variable column_names : list ident.
Variable columns : list (option string).
Variable rows : list csv_row.
Variable b : nat.
Hypothesis b_pos : (0 < b)%nat.
Hypothesis rows_have_columns : forallb (has_columns columns) rows = true.

Lemma insert_loop (m k : nat) (s : session) (old : list db_row) :
  settled s → working s !! table = Some old →
  for_each_sink
    (λ _ i,
       let batch := take b (drop i rows) in
       values ← lift (batch_values columns batch);
       _ ← executemany (InsertInto table column_names) values;
       commit)
    () (map (λ j, j * b) (seq k m)) s
  = (Ok (),
     {| committed := <[table := old ++ inserted column_names columns
                                      (take (m * b) (drop (k * b) rows))]>
                       (working s);
        working := <[table := old ++ inserted column_names columns
                                    (take (m * b) (drop (k * b) rows))]>
                     (working s);
        healthy := None; stdout := stdout s |}).
Proof.
  revert k s old. induction m as [|m IH]; intros k s old [Hh Hc] Hold.
  - simpl. rewrite app_nil_r, (insert_id _ _ _ Hold).
    destruct s; simpl in *; by subst.
  - set (batch := take b (drop (k * b) rows)).
    set (old1 := old ++ inserted column_names columns batch).
    set (s1 := {| committed := <[table := old1]> (working s);
                  working := <[table := old1]> (working s);
                  healthy := None; stdout := stdout s |}).
    assert (Hbody :
      (values ← lift (batch_values columns batch);
       _ ← executemany (InsertInto table column_names) values;
       commit) s = (Ok (), s1)).
    { erewrite sink_bind_ok;
        [|unfold lift; rewrite batch_values_cells; [done|];
          by apply forallb_take_drop].
      unfold executemany.
      erewrite sink_bind_ok;
        [|apply run_statement_reliable; [done|]; by apply apply_insert].
      by rewrite commit_reliable. }
    cbn [seq map for_each_sink].
    rewrite (sink_bind_ok _ _ _ _ _ Hbody).
    etrans; [apply (IH (S k) s1 old1); [done|apply lookup_insert_eq]|].
    simpl stdout. simpl working. rewrite insert_insert_eq.
    assert (Heq : old1 ++ inserted column_names columns
                            (take (m * b) (drop (S k * b) rows))
                  = old ++ inserted column_names columns
                             (take (S m * b) (drop (k * b) rows))).
    { unfold old1, batch, inserted. rewrite <- app_assoc. f_equal.
      rewrite <- map_app. f_equal.
      replace (S k * b)%nat with (k * b + b)%nat by lia.
      replace (S m * b)%nat with (b + m * b)%nat by lia.
      by rewrite <- drop_drop, take_take_drop. }
    by rewrite Heq.
Qed.

End Batches.

(** On a settled session, the batch loop appends every row to the table,
    in order, and commits. *)
Lemma insert_batches_settled (table : string) (column_names : list ident)
    (columns : list (option string)) (rows : list csv_row) (s : session)
    (old : list db_row) :
  forallb (has_columns columns) rows = true →
  settled s → working s !! table = Some old →
  insert_batches (InsertInto table column_names) columns rows s
  = (Ok (),
     {| committed := <[table := old ++ inserted column_names columns rows]> (working s);
        working := <[table := old ++ inserted column_names columns rows]> (working s);
        healthy := None; stdout := stdout s |}).
Proof.
  intros Hrows Hs Hold. unfold insert_batches, range_step.
  assert (Hb : (0 < batch_size)%nat) by (unfold batch_size; lia).
  revert Hb. generalize batch_size. intros b Hb.
  etrans; [apply (insert_loop table column_names columns rows b Hb Hrows _ 0 s old Hs Hold)|].
  simpl. rewrite drop_0, take_ge by (by apply batches_cover). done.
Qed.

(** ** The phases of [main] *)

Lemma load_csv_to_table_settled (fs : gmap string csv_content)
    (table_name csv_path : string) (s : session) :
  settled s → table_name ∈ dict_keys CSV_FILES → loadable (fs !! csv_path) →
  ∃ loaded s',
    load_csv_to_table fs table_name csv_path s = (Ok loaded, s')
    ∧ settled s'
    ∧ working s' !! "weather" = working s !! "weather".
Proof.
  intros [Hh Hc] Hlisted Hfile.
  apply get_table_schema_listed in Hlisted as [Hne [columns Hschema]].
  rewrite (load_csv_to_table_opening _ _ _ columns s Hh Hschema).
  assert (Hother : emptied table_name (working s) !! "weather"
                   = working s !! "weather").
  { unfold emptied. by rewrite lookup_insert_ne. }
  destruct (fs !! csv_path) as [[[|first rest]|e]|]; simpl in Hfile.
  - eexists _, _. split; [reflexivity|]. by split.
  - apply andb_true_iff in Hfile as [Hnamed Hrows].
    erewrite sink_bind_ok;
      [|unfold lift;
        rewrite (join_names_map quote_reserved
                   (λ name, if bool_decide (name ∈ ["group"; "date"]%string)
                            then Quoted name else Bare name));
        [done| |done]; intros name; simpl; by case_bool_decide].
    erewrite sink_bind_ok;
      [|apply (insert_batches_settled _ _ _ _ _ []);
        [done|done|apply lookup_insert_eq]].
    eexists _, _. split; [reflexivity|]. split; [done|]. simpl.
    rewrite lookup_insert_ne by done. done.
  - done.
  - eexists _, _. split; [reflexivity|]. by split.
Qed.

Lemma load_listed_tables_settled (fs : gmap string csv_content)
    (items : list (string * string)) (success_count : nat) (s : session) :
  (∀ table_name csv_path, (table_name, csv_path) ∈ items →
     table_name ∈ dict_keys CSV_FILES ∧ loadable (fs !! csv_path)) →
  settled s →
  ∃ n s',
    for_each_sink (load_listed_table fs) success_count items s = (Ok n, s')
    ∧ settled s'
    ∧ working s' !! "weather" = working s !! "weather".
Proof.
  revert success_count s.
  induction items as [|[table_name csv_path] items IH]; intros n s Hitems Hs.
  - exists n, s. done.
  - destruct (Hitems table_name csv_path) as [Hlisted Hfile]; [left|].
    destruct (load_csv_to_table_settled fs table_name csv_path s Hs Hlisted Hfile)
      as (loaded & s1 & Hload & Hs1 & Hw1).
    destruct (IH (if loaded then n + 1 else n)%nat s1) as (n' & s' & Hloop & Hs' & Hw');
      [intros t p Hin; apply Hitems; by right|done|].
    exists n', s'. split; [|split; [done|congruence]].
    simpl. erewrite sink_bind_ok; [exact Hloop|].
    erewrite sink_bind_ok; [|exact Hload]. done.
Qed.

Lemma load_weather_file_settled (weather_count : nat)
    (weather_file : string * csv_content) (s : session) (old : list db_row) :
  settled s → working s !! "weather" = Some old → artifact_ok weather_file.2 →
  ∃ n s',
    load_weather_file weather_count weather_file s = (Ok n, s')
    ∧ settled s'
    ∧ working s' !! "weather" = Some (old ++ artifact_rows weather_file.2).
Proof.
  intros [Hh Hc] Hold Hfile. unfold load_weather_file, try_sink.
  destruct weather_file as [name [[|first rest]|e]]; simpl in *.
  - eexists _, _. split; [reflexivity|]. rewrite app_nil_r. by split.
  - apply andb_true_iff in Hfile as [Hnamed Hrows].
    erewrite sink_bind_ok;
      [|unfold lift;
        rewrite (join_names_map table_column
                   (λ name, if bool_decide (name = "time"%string)
                            then Bare "datetime" else Bare name));
        [done| |done]; intros col; simpl; by case_bool_decide].
    erewrite sink_bind_ok;
      [|apply (insert_batches_settled _ _ _ _ _ old); [done|done|done]].
    eexists _, _. split; [reflexivity|]. split; [done|]. simpl.
    by rewrite lookup_insert_eq.
  - eexists _, _. split; [reflexivity|]. rewrite app_nil_r. by split.
Qed.

Lemma load_weather_files_settled (weather_files : list (string * csv_content))
    (weather_count : nat) (s : session) (old : list db_row) :
  settled s → working s !! "weather" = Some old →
  Forall (λ f, artifact_ok f.2) weather_files →
  ∃ n s',
    for_each_sink load_weather_file weather_count weather_files s = (Ok n, s')
    ∧ settled s'
    ∧ working s' !! "weather"
      = Some (old ++ concat (map (λ f, artifact_rows f.2) weather_files)).
Proof.
  revert weather_count s old.
  induction weather_files as [|f weather_files IH]; intros n s old Hs Hold Hok.
  - exists n, s. simpl. rewrite app_nil_r. done.
  - apply Forall_cons in Hok as [Hf Hok].
    destruct (load_weather_file_settled n f s old Hs Hold Hf)
      as (n1 & s1 & Hload & Hs1 & Hw1).
    destruct (IH n1 s1 _ Hs1 Hw1 Hok) as (n' & s' & Hloop & Hs' & Hw').
    exists n', s'. split; [|split; [done|]].
    + simpl. erewrite sink_bind_ok; [exact Hloop|exact Hload].
    + rewrite Hw'. simpl. by rewrite app_assoc.
Qed.

Lemma weather_schema :
  ∃ columns, get_table_schema "weather"
             = Some (CreateTableIfNotExists "weather" columns).
Proof. by eexists. Qed.

Lemma create_lookup (table : string) (columns : list (ident * sqltype))
    (tables created : gmap string (list db_row)) :
  apply_statement (CreateTableIfNotExists table columns) [] tables = Ok created →
  created !! table = Some (default [] (tables !! table)).
Proof.
  unfold apply_statement. destruct (tables !! table) eqn:Ht; intros [= <-].
  - by rewrite Ht.
  - by rewrite lookup_insert_eq.
Qed.

Lemma print_if (condition : bool) (l : line) (s : session) :
  (if condition then print l else mret ()) s = (Ok (), printed condition l s).
Proof. by destruct condition. Qed.

Lemma committed_printed (condition : bool) (l : line) (s : session) :
  committed (printed condition l s) = committed s.
Proof. by destruct condition. Qed.

(** A run on a reachable database and a connection that never fails,
    whose listed source files are missing or tables and whose artifact
    directory holds at least one artifact, each unreadable or a table:
    the run ends normally and the weather table is what it was followed
    by the rows of the artifacts, in the order of the artifacts. *)
Lemma main_appends_weather (env : environment)
    (tables : gmap string (list db_row)) (weather_file : string * csv_content)
    (weather_files : list (string * csv_content)) :
  connect env = Ok None →
  (∀ table_name csv_path, (table_name, csv_path) ∈ CSV_FILES →
     loadable (files env !! csv_path)) →
  weather_dir env = Some (weather_file :: weather_files) →
  Forall (λ f, artifact_ok f.2) (weather_file :: weather_files) →
  exit_status (main env tables) = 0%Z
  ∧ database (main env tables) !! "weather"
    = Some (default [] (tables !! "weather")
            ++ concat (map (λ f, artifact_rows f.2) (weather_file :: weather_files))).
Proof.
  intros Hconn Hfiles Hdir Hok. unfold main. rewrite Hconn.
  set (conn := {| committed := tables; working := tables;
                  healthy := None; stdout := [] |}).
  destruct (load_listed_tables_settled (files env) CSV_FILES 0 conn)
    as (n & s1 & Htables & [Hh1 Hc1] & Hw1).
  { intros t p Hin. split; [|by apply (Hfiles t p)].
    apply list_elem_of_fmap. by exists (t, p). }
  { done. }
  destruct weather_schema as [columns Hschema].
  destruct (create_total "weather" columns (working s1)) as [created Hcreate].
  pose proof (create_lookup _ _ _ _ Hcreate) as Hcreated.
  rewrite Hw1 in Hcreated. simpl in Hcreated.
  destruct (load_weather_files_settled (weather_file :: weather_files) 0
              {| committed := created; working := created;
                 healthy := None; stdout := stdout s1 |}
              (default [] (tables !! "weather")))
    as (wc & s3 & Hloop & [Hh3 Hc3] & Hw3); [done|done|done|].
  assert (Hrun : main_try env conn
                 = (Ok (), printed (0 <? wc)%nat (LoadedWeatherRecords wc)
                             {| committed := committed s3; working := working s3;
                                healthy := healthy s3;
                                stdout := stdout (printed (0 <? wc)%nat
                                                    (TotalWeatherRecords wc) s3)
                                          ++ [SuccessfullyLoaded n (length CSV_FILES)]
                             |})).
  { unfold main_try. erewrite sink_bind_ok; [|exact Htables]. rewrite Hdir.
    erewrite sink_bind_ok.
    2:{ rewrite Hschema. unfold execute.
        erewrite sink_bind_ok; [|by apply run_statement_reliable].
        erewrite sink_bind_ok; [|by apply commit_reliable].
        erewrite sink_bind_ok; [|exact Hloop].
        erewrite sink_bind_ok; [|apply print_if]. reflexivity. }
    erewrite sink_bind_ok; [|apply print_eq].
    rewrite print_if. f_equal. f_equal. by destruct (0 <? wc)%nat. }
  rewrite Hrun. simpl. split; [done|].
  rewrite committed_printed. simpl. by rewrite Hc3.
Qed.

(** ** Runs of the loader *)

(** C4 (what the code does): on a run whose connection succeeds and that
    finds no weather artifact (the directory missing, or without a
    [weather_*.csv]), [main] exits with status 1 even when every table
    load has returned: the success count is printed, then the test of
    [weather_count], a local bound only inside the artifact branch,
    raises [UnboundLocalError], which the generic handler turns into
    [sys.exit(1)]. *)
Theorem main_without_artifacts_exits_1 (env : environment)
    (tables : gmap string (list db_row)) (served : option nat) :
  connect env = Ok served →
  weather_dir env = None ∨ weather_dir env = Some [] →
  exit_status (main env tables) = 1%Z
  ∧ ∀ n s,
      for_each_sink (load_listed_table (files env)) 0 CSV_FILES
        {| committed := tables; working := tables;
           healthy := served; stdout := [] |} = (Ok n, s) →
      output (main env tables)
      = stdout s ++ [SuccessfullyLoaded n 8; Error UnboundLocalError]
      ∧ database (main env tables) = committed s.
Proof.
  intros Hconn Hdir. unfold main, main_try. rewrite Hconn.
  set (conn := {| committed := tables; working := tables;
                  healthy := served; stdout := [] |}).
  destruct (for_each_sink (load_listed_table (files env)) 0 CSV_FILES conn)
    as [[n|e] s] eqn:Htables.
  - erewrite sink_bind_ok; [|exact Htables].
    assert (Hrest :
      ∀ k : option nat → sink unit,
        (match weather_dir env with
         | Some weather_files =>
             match weather_files with
             | _ :: _ =>
                 _ ← execute (get_table_schema "weather");
                 _ ← commit;
                 weather_count ← for_each_sink load_weather_file 0 weather_files;
                 _ ← (if (0 <? weather_count)%nat
                      then print (TotalWeatherRecords weather_count)
                      else mret ());
                 mret (Some weather_count)
             | [] => mret None
             end
         | None => mret None
         end ≫= k) s = k None s).
    { intros k. by destruct Hdir as [-> | ->]. }
    rewrite Hrest. simpl. split; [done|].
    intros n' s' [= <- <-]. by rewrite <- app_assoc.
  - erewrite sink_bind_raise; [|exact Htables]. simpl. split; [done|]. done.
Qed.

Lemma main_without_artifacts_exits_1_witness :
  exit_status (main no_artifacts ∅) = 1%Z
  ∧ output (main no_artifacts ∅)
    = [RowsLoaded 1; RowsLoaded 1; RowsLoaded 1; RowsLoaded 1;
       RowsLoaded 1; RowsLoaded 1; RowsLoaded 1; RowsLoaded 1;
       SuccessfullyLoaded 8 8; Error UnboundLocalError].
Proof.
  split.
  - apply (main_without_artifacts_exits_1 no_artifacts ∅ None); [reflexivity|by left].
  - by vm_compute.
Defined.



(** ** The round trip of an artifact *)

Section RoundTrip.

Variable py_str : pyval → string.

Lemma written_rows_have_columns (records : list weather_record) :
  forallb (has_columns (map Some fieldnames)) (map (written_row py_str) records)
  = true.
Proof.
  induction records as [|r records IH]; [done|].
  cbn [map forallb]. apply andb_true_iff. split; [reflexivity|exact IH].
Qed.

Lemma written_rows_rectangular (records : list weather_record) :
  rectangular (map (written_row py_str) records) = true.
Proof.
  destruct records as [|r records]; [done|].
  unfold rectangular. change (map (written_row py_str) (r :: records))
    with (written_row py_str r :: map (written_row py_str) records).
  change (dict_keys (written_row py_str r)) with (map Some fieldnames).
  apply andb_true_iff. split; [done|].
  apply (written_rows_have_columns (r :: records)).
Qed.

Lemma artifact_rows_written (r : weather_record) (records : list weather_record) :
  artifact_rows (Rows (map (written_row py_str) (r :: records)))
  = map (λ r, zip (map time_to_datetime fieldnames) (written_fields py_str r))
      (r :: records).
Proof.
  change (map (written_row py_str) (r :: records))
    with (written_row py_str r :: map (written_row py_str) records).
  unfold artifact_rows.
  change (dict_keys (written_row py_str r)) with (map Some fieldnames).
  unfold inserted.
  change (written_row py_str r :: map (written_row py_str) records)
    with (map (written_row py_str) (r :: records)).
  rewrite map_map. apply map_ext. intros r'. reflexivity.
Qed.

End RoundTrip.



(** * Further properties *)

(** ** The record mapper *)

Lemma List_filter_sublist {A} (f : A → bool) (l : list A) :
  List.filter f l `sublist_of` l.
Proof.
  induction l as [|x l IH]; simpl; [constructor|].
  destruct (f x); by constructor.
Qed.

Lemma List_filter_sublist_mono {A} (f g : A → bool) (l : list A) :
  (∀ x, f x = true → g x = true) →
  List.filter f l `sublist_of` List.filter g l.
Proof.
  intros Hfg. induction l as [|x l IH]; simpl; [constructor|].
  destruct (f x) eqn:Hf.
  - rewrite (Hfg x Hf). by constructor.
  - destruct (g x); [by constructor|done].
Qed.

Lemma values_of_indices (a : option (list pyval)) :
  map (value_at a) (seq 0 (length (get_or_empty a))) = get_or_empty a.
Proof.
  unfold value_at. generalize (get_or_empty a). intros l.
  induction l as [|x l IH]; [done|].
  simpl. f_equal. rewrite <- seq_shift, map_map. exact IH.
Qed.

Lemma parse_weather_data_absent (fromisoformat : string → option pydatetime)
    (weather_json : option response) (outlet : outlet)
    (start_date end_date : datetime) :
  (∀ h, weather_json ≠ Some {| hourly := Some h |}) →
  parse_weather_data fromisoformat weather_json outlet start_date end_date = Ok [].
Proof.
  intros Hno. destruct weather_json as [[[h|]]|]; [|done|done].
  by destruct (Hno h).
Qed.

(** X1: whenever [parse_weather_data] returns, on any response (absent,
    without [hourly], without a time array included), the timestamps of
    the records are a subsequence of the time array, so there are at most
    as many records as timestamps and they come in the order of the
    array, and every record carries the id, name, latitude and longitude
    of the outlet it was called with. *)
Theorem emitted_records_follow_time_array
    (fromisoformat : string → option pydatetime) (weather_json : option response)
    (outlet : outlet) (start_date end_date : datetime)
    (records : list weather_record) :
  parse_weather_data fromisoformat weather_json outlet start_date end_date
  = Ok records →
  map r_time records `sublist_of` times_of weather_json
  ∧ (length records ≤ length (times_of weather_json))%nat
  ∧ ∀ r, r ∈ records → tagged outlet r.
Proof.
  intros Hparse.
  assert (Hcases : (∀ h, weather_json ≠ Some {| hourly := Some h |})
                   ∨ ∃ h, weather_json = Some {| hourly := Some h |}).
  { destruct weather_json as [[[h|]]|]; [right; by eexists|by left|by left]. }
  destruct Hcases as [Hno|[h ->]].
  - rewrite parse_weather_data_absent in Hparse by done. injection Hparse as <-.
    split; [apply sublist_nil_l|]. split; [simpl; lia|].
    by intros r Hr%elem_of_nil.
  - rewrite parse_weather_data_outcome in Hparse.
    destruct (existsb _ _); [done|]. injection Hparse as <-. simpl.
    assert (Hsub : map r_time
                     (map (record_at outlet h)
                        (List.filter (accepted fromisoformat start_date end_date h)
                           (seq 0 (length (get_or_empty (h_time h))))))
                   `sublist_of` get_or_empty (h_time h)).
    { rewrite map_map. simpl.
      rewrite <- (values_of_indices (h_time h)) at 2.
      apply (fmap_sublist (value_at (h_time h))), List_filter_sublist. }
    split; [done|]. split.
    + apply sublist_length in Hsub. by rewrite length_map in Hsub.
    + intros r Hr. apply list_elem_of_fmap in Hr as (i & -> & _). by repeat split.
Qed.

Lemma emitted_records_follow_time_array_witness :
  map r_time
    [{| r_outlet_id := 1; r_outlet_name := CStr "A";
        r_latitude := 40; r_longitude := -75;
        r_time := PStr "2024-01-01T06:00";
        r_wind_speed_10m := PNone; r_temperature_2m := PNone;
        r_relative_humidity_2m := PNone |}]
  `sublist_of` [PStr "2023-01-01T05:00"; PInt 7; PStr "2024-01-01T06:00"]
  ∧ (1 ≤ 3)%nat.
Proof.
  destruct (emitted_records_follow_time_array Py.fromisoformat
    (Some {| hourly := Some {| h_time := Some [PStr "2023-01-01T05:00"; PInt 7;
                                               PStr "2024-01-01T06:00"];
                               h_wind_speed_10m := None;
                               h_temperature_2m := None;
                               h_relative_humidity_2m := None |} |})
    {| o_id := 1; o_name := CStr "A"; o_latitude := 40; o_longitude := -75 |}
    (at_minute 2024 1 1 0 0) (at_minute 2024 1 2 0 0)
    [{| r_outlet_id := 1; r_outlet_name := CStr "A";
        r_latitude := 40; r_longitude := -75;
        r_time := PStr "2024-01-01T06:00";
        r_wind_speed_10m := PNone; r_temperature_2m := PNone;
        r_relative_humidity_2m := PNone |}] eq_refl) as (Hsub & Hlen & _).
  split; [exact Hsub|exact Hlen].
Defined.

Lemma parse_weather_data_raise (fromisoformat : string → option pydatetime)
    (weather_json : option response) (outlet : outlet)
    (start_date end_date : datetime) (e : exn) :
  parse_weather_data fromisoformat weather_json outlet start_date end_date
  = Raise e →
  e = TypeError.
Proof.
  destruct weather_json as [[[h|]]|]; [|done|done].
  rewrite parse_weather_data_outcome. destruct (existsb _ _); [|done].
  by intros [= <-].
Qed.


Lemma lex_le_trans (a b c : list Z) :
  lex_le a b = true → lex_le b c = true → lex_le a c = true.
Proof.
  revert b c. induction a as [|x a IH]; intros [|y b] [|z c]; simpl; try done.
  rewrite !orb_true_iff, !andb_true_iff, !Z.ltb_lt, !Z.eqb_eq.
  intros [Hxy|[-> Hab]] [Hyz|[-> Hbc]]; [left; lia|by left|by left|].
  right. split; [done|]. by eapply IH.
Qed.

Lemma dt_le_trans (a b c : datetime) :
  dt_le a b = true → dt_le b c = true → dt_le a c = true.
Proof. apply lex_le_trans. Qed.

Lemma in_window_mono (fromisoformat : string → option pydatetime)
    (start_date end_date start_date' end_date' : datetime) (v : pyval) :
  dt_le start_date' start_date = true → dt_le end_date end_date' = true →
  in_window fromisoformat start_date end_date v = true →
  in_window fromisoformat start_date' end_date' v = true.
Proof.
  intros Hstart Hend. unfold in_window.
  destruct v as [| | | |s| |]; try done.
  destruct (fromisoformat (remove_char "Z" s)) as [[t|t off]|]; try done.
  rewrite !andb_true_iff. intros [H1 H2]. split; by eapply dt_le_trans.
Qed.

Lemma List_filter_none {A} (f : A → bool) (l : list A) :
  (∀ x, f x = false) → List.filter f l = [].
Proof. intros Hf. induction l as [|x l IH]; simpl; [done|]. by rewrite Hf. Qed.

(** X3: a window whose end lies before its start selects nothing: when
    [end_date < start_date], [parse_weather_data] returns no record,
    whatever the response. *)
Theorem inverted_window_emits_nothing
    (fromisoformat : string → option pydatetime) (weather_json : option response)
    (outlet : outlet) (start_date end_date : datetime)
    (records : list weather_record) :
  dt_le start_date end_date = false →
  parse_weather_data fromisoformat weather_json outlet start_date end_date
  = Ok records →
  records = [].
Proof.
  intros Hinverted Hparse.
  destruct weather_json as [[[h|]]|]; [|by injection Hparse|by injection Hparse].
  rewrite parse_weather_data_outcome in Hparse.
  destruct (existsb _ _); [done|]. injection Hparse as <-.
  rewrite List_filter_none; [done|].
  intros i. unfold accepted, in_window.
  destruct (value_at (h_time h) i) as [| | | |s| |]; try done.
  destruct (fromisoformat (remove_char "Z" s)) as [[t|t off]|]; try done.
  apply not_true_is_false. rewrite andb_true_iff. intros [H1 H2].
  by rewrite (dt_le_trans _ _ _ H1 H2) in Hinverted.
Qed.

Lemma inverted_window_emits_nothing_witness :
  parse_weather_data Py.fromisoformat
    (Some {| hourly := Some {| h_time := Some [PStr "2024-01-01T06:00"];
                               h_wind_speed_10m := None;
                               h_temperature_2m := None;
                               h_relative_humidity_2m := None |} |})
    {| o_id := 1; o_name := CStr "A"; o_latitude := 40; o_longitude := -75 |}
    (at_minute 2024 1 2 0 0) (at_minute 2024 1 1 0 0)
  = Ok [].
Proof.
  destruct (parse_weather_data Py.fromisoformat
    (Some {| hourly := Some {| h_time := Some [PStr "2024-01-01T06:00"];
                               h_wind_speed_10m := None;
                               h_temperature_2m := None;
                               h_relative_humidity_2m := None |} |})
    {| o_id := 1; o_name := CStr "A"; o_latitude := 40; o_longitude := -75 |}
    (at_minute 2024 1 2 0 0) (at_minute 2024 1 1 0 0)) as [records|e] eqn:Hparse.
  - f_equal.
    exact (inverted_window_emits_nothing Py.fromisoformat _ _
             (at_minute 2024 1 2 0 0) (at_minute 2024 1 1 0 0) records
             eq_refl Hparse).
  - vm_compute in Hparse. discriminate.
Defined.

(** X4: widening the window never loses a record: when
    [start' <= start] and [end <= end'], the records returned for
    [[start, end]] are, in order, among those returned for
    [[start', end']] on the same response. *)
Theorem wider_window_keeps_records
    (fromisoformat : string → option pydatetime) (weather_json : option response)
    (outlet : outlet) (start_date end_date start_date' end_date' : datetime)
    (narrow wide : list weather_record) :
  dt_le start_date' start_date = true → dt_le end_date end_date' = true →
  parse_weather_data fromisoformat weather_json outlet start_date end_date
  = Ok narrow →
  parse_weather_data fromisoformat weather_json outlet start_date' end_date'
  = Ok wide →
  narrow `sublist_of` wide.
Proof.
  intros Hstart Hend Hnarrow Hwide.
  destruct weather_json as [[[h|]]|].
  - rewrite parse_weather_data_outcome in Hnarrow, Hwide.
    destruct (existsb _ _); [done|].
    injection Hnarrow as <-. injection Hwide as <-.
    apply (fmap_sublist (record_at outlet h)), List_filter_sublist_mono.
    intros i. by apply in_window_mono.
  - injection Hnarrow as <-. apply sublist_nil_l.
  - injection Hnarrow as <-. apply sublist_nil_l.
Qed.

Lemma wider_window_keeps_records_witness :
  [record_at
     {| o_id := 1; o_name := CStr "A"; o_latitude := 40; o_longitude := -75 |}
     {| h_time := Some [PStr "2024-01-01T06:00"; PStr "2024-01-01T18:00"];
        h_wind_speed_10m := None; h_temperature_2m := None;
        h_relative_humidity_2m := None |} 0]
  `sublist_of`
  [record_at
     {| o_id := 1; o_name := CStr "A"; o_latitude := 40; o_longitude := -75 |}
     {| h_time := Some [PStr "2024-01-01T06:00"; PStr "2024-01-01T18:00"];
        h_wind_speed_10m := None; h_temperature_2m := None;
        h_relative_humidity_2m := None |} 0;
   record_at
     {| o_id := 1; o_name := CStr "A"; o_latitude := 40; o_longitude := -75 |}
     {| h_time := Some [PStr "2024-01-01T06:00"; PStr "2024-01-01T18:00"];
        h_wind_speed_10m := None; h_temperature_2m := None;
        h_relative_humidity_2m := None |} 1].
Proof.
  apply (wider_window_keeps_records Py.fromisoformat
    (Some {| hourly := Some {| h_time := Some [PStr "2024-01-01T06:00";
                                               PStr "2024-01-01T18:00"];
                               h_wind_speed_10m := None;
                               h_temperature_2m := None;
                               h_relative_humidity_2m := None |} |})
    {| o_id := 1; o_name := CStr "A"; o_latitude := 40; o_longitude := -75 |}
    (at_minute 2024 1 1 0 0) (at_minute 2024 1 1 12 0)
    (at_minute 2024 1 1 0 0) (at_minute 2024 1 2 0 0));
    reflexivity.
Defined.

(** ** The catalog, further *)

Section CatalogOrder.

Variable py_int : string → option Z.
Variable py_float : string → option float.

Lemma first_located_unique rows i j o :
  first_located py_int py_float rows i o →
  first_located py_int py_float rows j o → i = j.
Proof.
  intros (ri & Hri & Hloci & _ & Hfirsti) (rj & Hrj & Hlocj & _ & Hfirstj).
  destruct (Nat.lt_trichotomy i j) as [Hlt|[->|Hgt]]; [|done|].
  - by destruct (Hfirstj i ri _ _ Hlt Hri Hloci).
  - by destruct (Hfirsti j rj _ _ Hgt Hrj Hlocj).
Qed.

Lemma first_located_snoc_inv rows row outlets i o :
  catalog_of py_int py_float rows outlets →
  (o_id o, o) ∈ outlets →
  first_located py_int py_float (rows ++ [row]) i o →
  first_located py_int py_float rows i o.
Proof.
  intros (_ & _ & Hiff & _) Hin Hi.
  apply Hiff in Hin as [j Hj].
  assert (first_located py_int py_float (rows ++ [row]) j o) as Hj'.
  { apply first_located_snoc_old; [by eapply first_located_bound|done]. }
  by rewrite (first_located_unique _ _ _ _ Hi Hj').
Qed.

(** The entries of the dict come in the order of the rows they are built
    from. *)
Lemma catalog_order_loop rows outlets :
  for_each (load_outlets_row py_int py_float) [] rows = Ok outlets →
  ∀ a b ka oa kb ob i j,
    outlets !! a = Some (ka, oa) → outlets !! b = Some (kb, ob) → (a < b)%nat →
    first_located py_int py_float rows i oa →
    first_located py_int py_float rows j ob → (i < j)%nat.
Proof.
  revert outlets. induction rows as [|row rows IH] using rev_ind; intros outlets.
  - simpl. intros [= <-] a b ka oa kb ob i j Ha. by rewrite lookup_nil in Ha.
  - rewrite for_each_snoc.
    destruct (for_each (load_outlets_row py_int py_float) [] rows)
      as [outlets1|e] eqn:Hloop; simpl; [|done].
    intros Hstep.
    pose proof (catalog_of_loop py_int py_float [] [] rows outlets1
                  (catalog_of_nil py_int py_float) Hloop) as Hcat.
    simpl in Hcat. pose proof Hcat as (_ & Hkey & Hiff & _).
    specialize (IH outlets1 eq_refl).
    assert (Hold : ∀ a k o i, outlets1 !! a = Some (k, o) →
              first_located py_int py_float (rows ++ [row]) i o →
              first_located py_int py_float rows i o).
    { intros a k o i Ha Hi. eapply first_located_snoc_inv; [done| |done].
      apply list_elem_of_lookup_2 in Ha. by rewrite (Hkey _ _ Ha). }
    apply load_outlets_row_cases in Hstep
      as (id & lat & lon & _ & _ & _ & Hcases).
    destruct Hcases as [[_ ->]|[(_ & _ & ->)|(_ & Hmem & name & _ & ->)]].
    + intros a b ka oa kb ob i j Ha Hb Hab Hi Hj.
      eapply (IH a b); eauto.
    + intros a b ka oa kb ob i j Ha Hb Hab Hi Hj.
      eapply (IH a b); eauto.
    + intros a b ka oa kb ob i j Ha Hb Hab Hi Hj.
      assert (a < length outlets1)%nat as Halt.
      { apply lookup_lt_Some in Hb. rewrite length_app in Hb. simpl in Hb. lia. }
      rewrite lookup_app_l in Ha by done.
      pose proof (Hold _ _ _ _ Ha Hi) as Hi'.
      destruct (decide (b < length outlets1)%nat) as [Hblt|Hbge].
      * rewrite lookup_app_l in Hb by done. eapply (IH a b); eauto.
      * apply first_located_bound in Hi'.
        assert (j = length rows); [|lia].
        destruct (decide (j < length rows)%nat) as [Hjlt|Hjge].
        -- (* the last entry is the new outlet, whose id no entry had *)
           exfalso. rewrite lookup_app_r in Hb by lia.
           destruct (b - length outlets1)%nat; [|done]. simpl in Hb.
           injection Hb as <- <-.
           apply first_located_snoc_old in Hj; [|done].
           assert (dict_mem id outlets1 = true) as Hmem'; [|congruence].
           apply dict_mem_true.
           exists {| o_id := id; o_name := name; o_latitude := lat;
                     o_longitude := lon |}.
           apply (Hiff {| o_id := id; o_name := name; o_latitude := lat;
                          o_longitude := lon |}). eauto.
        -- apply first_located_bound in Hj. rewrite length_app in Hj.
           simpl in Hj. lia.
Qed.

(** X5: the catalog [load_outlets] returns lists the outlets in the order
    of the rows they are built from: an outlet that comes before another
    in the catalog is built from an earlier row. *)
Theorem load_outlets_keeps_row_order (fs : gmap string csv_content)
    (csv_path : string) (rows : list csv_row) (outs : list outlet)
    (a b i j : nat) (oa ob : outlet) :
  fs !! csv_path = Some (Rows rows) →
  load_outlets py_int py_float fs csv_path = Ok outs →
  outs !! a = Some oa → outs !! b = Some ob → (a < b)%nat →
  first_located py_int py_float rows i oa →
  first_located py_int py_float rows j ob →
  (i < j)%nat.
Proof.
  unfold load_outlets. intros -> Hload Ha Hb Hab Hi Hj.
  destruct (for_each (load_outlets_row py_int py_float) [] rows)
    as [outlets|e] eqn:Hloop; simpl in Hload; [|done].
  injection Hload as <-. unfold dict_values in Ha, Hb.
  rewrite list_lookup_fmap in Ha, Hb.
  destruct (outlets !! a) as [[ka oa']|] eqn:Ha'; [|done].
  destruct (outlets !! b) as [[kb ob']|] eqn:Hb'; [|done].
  simpl in Ha, Hb. injection Ha as ->. injection Hb as ->.
  by eapply (catalog_order_loop rows outlets Hloop a b).
Qed.

(** X6: a row whose id is not an integer literal fails the whole load
    with [ValueError], even when its location is the sentinel and the row
    would have been skipped: the id is parsed first.  No partial catalog
    is returned. *)
Theorem load_outlets_bad_id_fails (fs : gmap string csv_content)
    (csv_path : string) (before after : list csv_row) (bad : csv_row)
    (text : string) :
  fs !! csv_path = Some (Rows (before ++ bad :: after)) →
  (∀ row, row ∈ before → well_formed_row py_int py_float row) →
  getitem bad "id" = Ok (CStr text) → py_int text = None →
  load_outlets py_int py_float fs csv_path = Raise ValueError.
Proof.
  intros Hfs Hbefore Hid Hbad. unfold load_outlets. rewrite Hfs.
  rewrite for_each_app.
  destruct (load_outlets_loop_total py_int py_float before [] Hbefore)
    as [outlets ->].
  simpl. unfold load_outlets_row. rewrite Hid. simpl. by rewrite Hbad.
Qed.

End CatalogOrder.


Lemma load_outlets_keeps_row_order_witness : (0 < 2)%nat.
Proof.
  apply (load_outlets_keeps_row_order Py.int Py.float
    {["csv_data/outlet.csv" := Rows [catalog_row "5" "E" "10.0" "20.0";
                                     catalog_row "5" "F" "11.0" "21.0";
                                     catalog_row "3" "C" "12.0" "22.0"]]}
    "csv_data/outlet.csv"
    [catalog_row "5" "E" "10.0" "20.0"; catalog_row "5" "F" "11.0" "21.0";
     catalog_row "3" "C" "12.0" "22.0"]
    [{| o_id := 5; o_name := CStr "E"; o_latitude := 10; o_longitude := 20 |};
     {| o_id := 3; o_name := CStr "C"; o_latitude := 12; o_longitude := 22 |}]
    0 1 0 2
    {| o_id := 5; o_name := CStr "E"; o_latitude := 10; o_longitude := 20 |}
    {| o_id := 3; o_name := CStr "C"; o_latitude := 12; o_longitude := 22 |});
    try reflexivity.
  - lia.
  - eexists. split; [reflexivity|]. split; [by repeat split|].
    split; [reflexivity|]. intros k r la lo Hk. lia.
  - eexists. split; [reflexivity|]. split; [by repeat split|].
    split; [reflexivity|]. intros k r la lo Hk Hr (Hid & _).
    destruct k as [|[|k]]; [| |lia]; injection Hr as <-; vm_compute in Hid;
      discriminate.
Defined.

Lemma load_outlets_bad_id_fails_witness :
  load_outlets Py.int Py.float
    {["csv_data/outlet.csv" := Rows [catalog_row "1" "A" "40.0" "-75.0";
                                     catalog_row "x2" "B" "" ""]]}
    "csv_data/outlet.csv"
  = Raise ValueError.
Proof.
  apply (load_outlets_bad_id_fails Py.int Py.float _ _
           [catalog_row "1" "A" "40.0" "-75.0"] [] (catalog_row "x2" "B" "" "")
           "x2"); try reflexivity.
  intros row Hrow. apply list_elem_of_singleton in Hrow. subst row.
  by exists 1%Z, 40%float, (-75)%float, (CStr "A").
Defined.

(** ** The pipeline *)

Lemma minus_24_hours_before (t start : datetime) :
  minus_24_hours t = Some start →
  dt_le start t = true ∧ dt_le t start = false.
Proof.
  unfold minus_24_hours, dt_le, dt_fields.
  destruct (Z.ltb_spec 1 (day t)); [|destruct (Z.ltb_spec 1 (month t));
    [|destruct (Z.ltb_spec 1 (year t)); [|done]]];
    intros [= <-]; simpl;
    rewrite ?Z.eqb_refl, ?Z.ltb_irrefl; simpl;
    repeat match goal with
           | |- context [(?a <? ?b)%Z] => destruct (Z.ltb_spec a b); try lia
           | |- context [(?a =? ?b)%Z] => destruct (Z.eqb_spec a b); try lia
           end; done.
Qed.

Lemma parsed_records_in_window (fromisoformat : string → option pydatetime)
    (weather_json : option response) (outlet : outlet)
    (start_date end_date : datetime) (records : list weather_record) :
  parse_weather_data fromisoformat weather_json outlet start_date end_date
  = Ok records →
  ∀ r, r ∈ records →
    in_window fromisoformat start_date end_date (r_time r) = true
    ∧ tagged outlet r.
Proof.
  intros Hparse r Hr.
  destruct weather_json as [[[h|]]|];
    [|injection Hparse as <-; by apply elem_of_nil in Hr
     |injection Hparse as <-; by apply elem_of_nil in Hr].
  rewrite parse_weather_data_outcome in Hparse.
  destruct (existsb _ _); [done|]. injection Hparse as <-.
  apply list_elem_of_fmap in Hr as (i & -> & Hi).
  apply list_elem_of_In, filter_In in Hi as [_ Hi]. split; [done|by repeat split].
Qed.

Section PipelineProperties.

Variable py_int : string → option Z.
Variable py_float : string → option float.
Variable fromisoformat : string → option pydatetime.
Variable py_str : pyval → string.
Variable fetch_weather_data :
  nat → float → float → datetime → datetime → option response.
Variable strftime : datetime → string.

(** The records the loop adds for one outlet. *)
Lemma fetch_outlet_adds (start_date end_date : datetime)
    (all_records all_records' : list weather_record) (calls : nat)
    (outlet : outlet) :
  fetch_outlet fromisoformat fetch_weather_data start_date end_date all_records
    (calls, outlet) = Ok all_records' →
  all_records'
  = all_records
    ++ parsed_records fromisoformat
         (fetch_weather_data calls (o_latitude outlet) (o_longitude outlet)
            start_date end_date)
         outlet start_date end_date.
Proof.
  unfold fetch_outlet, parsed_records.
  destruct (fetch_weather_data calls _ _ _ _) as [weather_json|].
  - destruct (parse_weather_data _ _ _ _ _); simpl; [|done]. by intros [= <-].
  - intros [= <-]. by rewrite app_nil_r.
Qed.

Lemma fetch_loop_concat (start_date end_date : datetime)
    (items : list (nat * outlet)) (all_records all_records' : list weather_record) :
  for_each (fetch_outlet fromisoformat fetch_weather_data start_date end_date)
    all_records items = Ok all_records' →
  all_records'
  = all_records
    ++ concat (map (λ item : nat * outlet,
                      parsed_records fromisoformat
                        (fetch_weather_data item.1 (o_latitude item.2)
                           (o_longitude item.2) start_date end_date)
                        item.2 start_date end_date) items).
Proof.
  revert all_records. induction items as [|[calls outlet] items IH];
    intros all_records; cbn [for_each map concat].
  - intros [= <-]. by rewrite app_nil_r.
  - destruct (fetch_outlet fromisoformat fetch_weather_data start_date end_date
                all_records (calls, outlet)) as [records1|e] eqn:Hstep;
      simpl; [|done].
    intros Hloop. apply IH in Hloop. apply fetch_outlet_adds in Hstep.
    rewrite Hloop, Hstep. by rewrite <- app_assoc.
Qed.

Lemma fetch_loop_raises (start_date end_date : datetime)
    (items : list (nat * outlet)) (all_records : list weather_record) (e : exn) :
  for_each (fetch_outlet fromisoformat fetch_weather_data start_date end_date)
    all_records items = Raise e →
  e = TypeError.
Proof.
  revert all_records. induction items as [|[calls outlet] items IH];
    intros all_records; cbn [for_each]; [done|].
  destruct (fetch_outlet fromisoformat fetch_weather_data start_date end_date
              all_records (calls, outlet)) as [records1|e'] eqn:Hstep; simpl.
  - apply IH.
  - intros [= <-]. unfold fetch_outlet in Hstep.
    destruct (fetch_weather_data calls _ _ _ _) as [weather_json|]; [|done].
    destruct (parse_weather_data fromisoformat (Some weather_json) outlet
                start_date end_date) as [records|e''] eqn:Hparse; [done|].
    simpl in Hstep. injection Hstep as <-.
    by eapply parse_weather_data_raise.
Qed.

Lemma fetch_loop_total (start_date end_date : datetime)
    (items : list (nat * outlet)) (all_records : list weather_record) :
  (∀ calls latitude longitude weather_json v,
     fetch_weather_data calls latitude longitude start_date end_date
     = Some weather_json →
     v ∈ times_of (Some weather_json) → parses_aware fromisoformat v = false) →
  ∃ all_records',
    for_each (fetch_outlet fromisoformat fetch_weather_data start_date end_date)
      all_records items = Ok all_records'.
Proof.
  intros Hnaive. revert all_records.
  induction items as [|[calls outlet] items IH]; intros all_records;
    cbn [for_each]; [by eexists|].
  assert (∃ records1,
            fetch_outlet fromisoformat fetch_weather_data start_date end_date
              all_records (calls, outlet) = Ok records1) as [records1 ->].
  { unfold fetch_outlet.
    destruct (fetch_weather_data calls _ _ _ _) as [weather_json|] eqn:Hfetch;
      [|by eexists].
    destruct (parse_weather_data fromisoformat (Some weather_json) outlet
                start_date end_date) as [records|e] eqn:Hparse; [by eexists|].
    exfalso. destruct weather_json as [[h|]]; [|done].
    rewrite parse_weather_data_outcome, no_aware_timestamp in Hparse; [done|].
    intros v Hv. by eapply Hnaive. }
  apply IH.
Qed.

(** X7: a run of the pipeline that ends normally has gathered, for the
    outlets of the catalog in catalog order, the records parsed from each
    outlet's response under the window [[now - 24h, now]]; an outlet
    whose request failed contributes no record and does not stop the
    run. *)
Theorem pipeline_gathers_in_catalog_order (fs fs' : gmap string csv_content)
    (now later : datetime) (all_records : list weather_record) :
  weather_fetch_pipeline py_int py_float fromisoformat py_str fetch_weather_data
    strftime fs now later = Finished fs' all_records →
  ∃ outlets start_date,
    load_outlets py_int py_float fs "csv_data/outlet.csv" = Ok outlets
    ∧ minus_24_hours now = Some start_date
    ∧ all_records
      = concat (map (λ item : nat * outlet,
                       parsed_records fromisoformat
                         (fetch_weather_data item.1 (o_latitude item.2)
                            (o_longitude item.2) start_date now)
                         item.2 start_date now)
                  (zip (seq 0 (length outlets)) outlets)).
Proof.
  unfold weather_fetch_pipeline.
  destruct (load_outlets py_int py_float fs "csv_data/outlet.csv")
    as [outlets|e]; [|done].
  destruct (minus_24_hours now) as [start_date|]; [|done].
  destruct (for_each _ _ _) as [records|e] eqn:Hloop; [|done].
  apply fetch_loop_concat in Hloop. simpl in Hloop.
  intros Hfinished. exists outlets, start_date. do 2 (split; [done|]).
  destruct records; by injection Hfinished as <- <-.
Qed.

(** X8: every record a run of the pipeline gathers lies in the 24 hours
    that end at the clock reading, the start of which is before its end,
    and carries the snapshot of an outlet of the loaded catalog, whose
    location is therefore not the (0.0, 0.0) sentinel. *)
Theorem pipeline_records_are_in_window (fs fs' : gmap string csv_content)
    (now later : datetime) (all_records : list weather_record) :
  weather_fetch_pipeline py_int py_float fromisoformat py_str fetch_weather_data
    strftime fs now later = Finished fs' all_records →
  ∃ outlets start_date,
    load_outlets py_int py_float fs "csv_data/outlet.csv" = Ok outlets
    ∧ minus_24_hours now = Some start_date
    ∧ dt_le start_date now = true
    ∧ ∀ r, r ∈ all_records →
        in_window fromisoformat start_date now (r_time r) = true
        ∧ sentinel (r_latitude r) (r_longitude r) = false
        ∧ ∃ outlet, outlet ∈ outlets ∧ tagged outlet r.
Proof.
  unfold weather_fetch_pipeline.
  destruct (load_outlets py_int py_float fs "csv_data/outlet.csv")
    as [outlets|e] eqn:Hload; [|done].
  destruct (minus_24_hours now) as [start_date|] eqn:Hstart; [|done].
  destruct (for_each _ _ _) as [records|e] eqn:Hloop; [|done].
  apply fetch_loop_concat in Hloop. simpl in Hloop.
  intros Hfinished. exists outlets, start_date. do 2 (split; [done|]).
  split; [by apply minus_24_hours_before in Hstart as [? _]|].
  assert (all_records = records) as -> by (destruct records; by injection Hfinished).
  intros r Hr. rewrite Hloop in Hr.
  apply list_elem_of_In, in_concat in Hr as (rs & Hrs & Hr).
  apply in_map_iff in Hrs as ([calls outlet] & <- & Hitem).
  apply list_elem_of_In in Hr. apply list_elem_of_In in Hitem.
  simpl in Hr. unfold parsed_records in Hr.
  destruct (parse_weather_data fromisoformat _ outlet start_date now)
    as [parsed|e] eqn:Hparse; [|by apply elem_of_nil in Hr].
  destruct (parsed_records_in_window _ _ _ _ _ _ Hparse r Hr) as [Hin Htag].
  apply elem_of_zip_r in Hitem.
  assert (sentinel (o_latitude outlet) (o_longitude outlet) = false) as Hloc.
  { unfold load_outlets in Hload.
    destruct (fs !! "csv_data/outlet.csv") as [[rows|e]|] eqn:Hfs; [|done|done].
    destruct (load_outlets_catalog py_int py_float fs "csv_data/outlet.csv" rows
                outlets Hfs) as [_ Hiff].
    { unfold load_outlets. by rewrite Hfs. }
    apply Hiff in Hitem as [i (row & _ & (_ & _ & _ & Hs) & _)]. done. }
  split; [done|]. split; [|by exists outlet].
  destruct Htag as (_ & _ & -> & ->). done.
Qed.

(** X9: a run of the pipeline that ends normally leaves the file system
    as it was when it gathered no record (no artifact, not an empty one);
    otherwise it writes exactly one file, the artifact named after the
    second clock reading, holding one row per gathered record in order,
    and changes no other path, the catalog included. *)
Theorem pipeline_writes_one_artifact_or_none (fs fs' : gmap string csv_content)
    (now later : datetime) (all_records : list weather_record) :
  weather_fetch_pipeline py_int py_float fromisoformat py_str fetch_weather_data
    strftime fs now later = Finished fs' all_records →
  (all_records = [] → fs' = fs)
  ∧ (all_records ≠ [] →
     fs' !! String.append "data/weather/weather_"
              (String.append (strftime later) ".csv")
     = Some (Rows (map (written_row py_str) all_records)))
  ∧ (∀ path, path ≠ String.append "data/weather/weather_"
                      (String.append (strftime later) ".csv") →
       fs' !! path = fs !! path)
  ∧ fs' !! "csv_data/outlet.csv" = fs !! "csv_data/outlet.csv".
Proof.
  unfold weather_fetch_pipeline.
  destruct (load_outlets py_int py_float fs "csv_data/outlet.csv")
    as [outlets|e]; [|done].
  destruct (minus_24_hours now) as [start_date|]; [|done].
  destruct (for_each _ _ _) as [[|r records]|e]; [| |done].
  - intros [= <- <-]. by repeat split.
  - intros [= <- <-]. unfold save_to_csv.
    split; [done|]. split; [intros _; apply lookup_insert_eq|].
    split; [intros path Hpath; by apply lookup_insert_ne|].
    by apply lookup_insert_ne.
Qed.



End PipelineProperties.

Lemma pipeline_gathers_in_catalog_order_witness :
  ∃ outlets start_date,
    load_outlets Py.int Py.float three_rows "csv_data/outlet.csv" = Ok outlets
    ∧ minus_24_hours (at_minute 2024 1 2 12 0) = Some start_date
    ∧ [record_at outlet_c two_hours 0; record_at outlet_c two_hours 1]
      = concat (map (λ item : nat * outlet,
                       parsed_records Py.fromisoformat
                         (flaky_client item.1 (o_latitude item.2)
                            (o_longitude item.2) start_date
                            (at_minute 2024 1 2 12 0))
                         item.2 start_date (at_minute 2024 1 2 12 0))
                  (zip (seq 0 (length outlets)) outlets)).
Proof.
  apply (pipeline_gathers_in_catalog_order Py.int Py.float Py.fromisoformat
           Py.str flaky_client stamp three_rows
           (<["data/weather/weather_20240102_120500.csv"%string :=
                Rows (map (written_row Py.str)
                        [record_at outlet_c two_hours 0;
                         record_at outlet_c two_hours 1])]> three_rows)
           (at_minute 2024 1 2 12 0) (at_minute 2024 1 2 12 5)).
  vm_compute. reflexivity.
Defined.

Lemma pipeline_records_are_in_window_witness :
  ∃ outlets start_date,
    load_outlets Py.int Py.float three_rows "csv_data/outlet.csv" = Ok outlets
    ∧ minus_24_hours (at_minute 2024 1 2 12 0) = Some start_date
    ∧ dt_le start_date (at_minute 2024 1 2 12 0) = true
    ∧ ∀ r, r ∈ [record_at outlet_c two_hours 0; record_at outlet_c two_hours 1] →
        in_window Py.fromisoformat start_date (at_minute 2024 1 2 12 0) (r_time r)
        = true
        ∧ sentinel (r_latitude r) (r_longitude r) = false
        ∧ ∃ outlet, outlet ∈ outlets ∧ tagged outlet r.
Proof.
  apply (pipeline_records_are_in_window Py.int Py.float Py.fromisoformat
           Py.str flaky_client stamp three_rows
           (<["data/weather/weather_20240102_120500.csv"%string :=
                Rows (map (written_row Py.str)
                        [record_at outlet_c two_hours 0;
                         record_at outlet_c two_hours 1])]> three_rows)
           (at_minute 2024 1 2 12 0) (at_minute 2024 1 2 12 5)).
  vm_compute. reflexivity.
Defined.

Lemma pipeline_writes_one_artifact_or_none_witness :
  (<["data/weather/weather_20240102_120500.csv"%string :=
       Rows (map (written_row Py.str)
               [record_at outlet_c two_hours 0;
                record_at outlet_c two_hours 1])]> three_rows)
  !! "data/weather/weather_20240102_120500.csv"%string
  = Some (Rows (map (written_row Py.str)
                  [record_at outlet_c two_hours 0;
                   record_at outlet_c two_hours 1]))
  ∧ (<["data/weather/weather_20240102_120500.csv"%string :=
         Rows (map (written_row Py.str)
                 [record_at outlet_c two_hours 0;
                  record_at outlet_c two_hours 1])]> three_rows)
    !! "csv_data/outlet.csv"%string
    = three_rows !! "csv_data/outlet.csv"%string.
Proof.
  destruct (pipeline_writes_one_artifact_or_none Py.int Py.float
              Py.fromisoformat Py.str flaky_client stamp three_rows
              (<["data/weather/weather_20240102_120500.csv"%string :=
                   Rows (map (written_row Py.str)
                           [record_at outlet_c two_hours 0;
                            record_at outlet_c two_hours 1])]> three_rows)
              (at_minute 2024 1 2 12 0) (at_minute 2024 1 2 12 5)
              [record_at outlet_c two_hours 0; record_at outlet_c two_hours 1])
    as (_ & Hwritten & _ & Hcatalog).
  - vm_compute. reflexivity.
  - split; [by apply Hwritten|exact Hcatalog].
Defined.



(** ** Loading the tables of the fixed list *)

Lemma stored_names (columns : list (option string)) :
  map ident_name
    (map (λ col, if bool_decide (column_name col ∈ ["group"; "date"]%string)
                 then Quoted (column_name col) else Bare (column_name col))
       columns)
  = map column_name columns.
Proof.
  rewrite map_map. apply map_ext. intros col. by case_bool_decide.
Qed.

Lemma join_names_quoted (columns : list (option string)) :
  forallb named columns = true →
  join_names (map quote_reserved columns)
  = Ok (map (λ col, if bool_decide (column_name col ∈ ["group"; "date"]%string)
                    then Quoted (column_name col) else Bare (column_name col))
          columns).
Proof.
  intros Hnamed.
  rewrite (join_names_map quote_reserved
             (λ name, if bool_decide (name ∈ ["group"; "date"]%string)
                      then Quoted name else Bare name)); [done| |done].
  intros name. simpl. by case_bool_decide.
Qed.

(** On a settled session, the load of a table of the fixed list from a
    missing file or a table. *)
Lemma load_csv_to_table_run (fs : gmap string csv_content)
    (table_name csv_path : string) (s : session) :
  settled s → table_name ∈ dict_keys CSV_FILES → loadable (fs !! csv_path) →
  load_csv_to_table fs table_name csv_path s
  = (Ok (has_rows (fs !! csv_path)),
     {| committed := <[table_name := table_rows (fs !! csv_path)]> (working s);
        working := <[table_name := table_rows (fs !! csv_path)]> (working s);
        healthy := None;
        stdout := stdout s ++ [report csv_path (fs !! csv_path)] |}).
Proof.
  intros [Hh Hc] Hlisted Hfile.
  apply get_table_schema_listed in Hlisted as [Hne [columns Hschema]].
  rewrite (load_csv_to_table_opening _ _ _ columns s Hh Hschema).
  destruct (fs !! csv_path) as [[[|first rest]|e]|]; simpl in Hfile; [done| |done|done].
  apply andb_true_iff in Hfile as [Hnamed Hrows].
  erewrite sink_bind_ok; [|unfold lift; by rewrite join_names_quoted].
  erewrite sink_bind_ok;
    [|apply (insert_batches_settled _ _ _ _ _ []);
      [done|done|apply lookup_insert_eq]].
  unfold emptied. cbn -[inserted]. rewrite insert_insert_eq.
  unfold inserted. rewrite stored_names. done.
Qed.



Lemma lookup_loaded_other (fs : gmap string csv_content)
    (items : list (string * string)) (tables : gmap string (list db_row))
    (table_name : string) :
  table_name ∉ dict_keys items →
  loaded fs items tables !! table_name = tables !! table_name.
Proof.
  revert tables. induction items as [|[t p] items IH]; intros tables Hnot; [done|].
  change (loaded fs ((t, p) :: items) tables)
    with (loaded fs items (<[t := table_rows (fs !! p)]> tables)).
  apply not_elem_of_cons in Hnot as [Hne Hnot].
  rewrite IH by done. by apply lookup_insert_ne.
Qed.

Lemma lookup_loaded (fs : gmap string csv_content)
    (items : list (string * string)) (tables : gmap string (list db_row))
    (table_name csv_path : string) :
  NoDup (dict_keys items) → (table_name, csv_path) ∈ items →
  loaded fs items tables !! table_name = Some (table_rows (fs !! csv_path)).
Proof.
  revert tables. induction items as [|[t p] items IH]; intros tables Hnd Hin.
  - by apply elem_of_nil in Hin.
  - apply NoDup_cons in Hnd as [Hnot Hnd].
    change (loaded fs ((t, p) :: items) tables)
      with (loaded fs items (<[t := table_rows (fs !! p)]> tables)).
    apply elem_of_cons in Hin as [[= -> ->]|Hin].
    + rewrite lookup_loaded_other by done. apply lookup_insert_eq.
    + by apply IH.
Qed.

Lemma load_listed_tables_run (fs : gmap string csv_content)
    (items : list (string * string)) (success_count : nat) (s : session) :
  (∀ table_name csv_path, (table_name, csv_path) ∈ items →
     table_name ∈ dict_keys CSV_FILES ∧ loadable (fs !! csv_path)) →
  settled s →
  for_each_sink (load_listed_table fs) success_count items s
  = (Ok (success_count + loaded_count fs items),
     {| committed := loaded fs items (working s);
        working := loaded fs items (working s);
        healthy := None;
        stdout := stdout s ++ reports fs items |}).
Proof.
  revert success_count s.
  induction items as [|[t p] items IH]; intros n s Hitems [Hh Hc].
  - simpl. rewrite Nat.add_0_r, app_nil_r. destruct s; simpl in *; by subst.
  - destruct (Hitems t p) as [Hlisted Hfile]; [left|].
    cbn [for_each_sink].
    erewrite sink_bind_ok.
    2:{ unfold load_listed_table. erewrite sink_bind_ok;
          [|by apply load_csv_to_table_run]. reflexivity. }
    rewrite IH; [|intros t' p' Hin; apply Hitems; by right|done].
    change (loaded fs ((t, p) :: items) (working s))
      with (loaded fs items (<[t := table_rows (fs !! p)]> (working s))).
    unfold loaded_count, reports. cbn [List.filter map snd].
    cbn [working stdout]. rewrite <- app_assoc. cbn [app].
    destruct (has_rows (fs !! p)); cbn [length]; do 2 f_equal; lia.
Qed.

(** ** The artifact loop and whole runs *)

Lemma join_names_weather (columns : list (option string)) :
  forallb named columns = true →
  join_names (map table_column columns) = Ok (weather_names columns).
Proof.
  intros Hnamed. unfold weather_names.
  rewrite (join_names_map table_column
             (λ name, if bool_decide (name = "time"%string)
                      then Bare "datetime" else Bare name)); [done| |done].
  intros col. simpl. by case_bool_decide.
Qed.

Lemma load_weather_file_run (weather_count : nat)
    (weather_file : string * csv_content) (s : session) (old : list db_row) :
  settled s → working s !! "weather" = Some old → artifact_ok weather_file.2 →
  load_weather_file weather_count weather_file s
  = (Ok (weather_count + artifact_count weather_file),
     {| committed := <["weather" := old ++ artifact_rows weather_file.2]> (working s);
        working := <["weather" := old ++ artifact_rows weather_file.2]> (working s);
        healthy := None;
        stdout := stdout s ++ [weather_line weather_file] |}).
Proof.
  intros [Hh Hc] Hold Hfile. destruct s as [c w h o]. simpl in Hh, Hc, Hold.
  subst c h. unfold load_weather_file, try_sink, artifact_count, weather_line.
  destruct weather_file as [name [[|first rest]|e]]; simpl in Hfile;
    cbn [snd artifact_rows].
  - cbn. by rewrite Nat.add_0_r, app_nil_r, (insert_id _ _ _ Hold).
  - apply andb_true_iff in Hfile as [Hnamed Hrows].
    erewrite sink_bind_ok; [|unfold lift; by rewrite join_names_weather].
    erewrite sink_bind_ok;
      [|apply (insert_batches_settled _ _ _ _ _ old); [done|done|done]].
    reflexivity.
  - cbn. by rewrite Nat.add_0_r, app_nil_r, (insert_id _ _ _ Hold).
Qed.

Lemma load_weather_files_run (weather_files : list (string * csv_content))
    (weather_count : nat) (s : session) (old : list db_row) :
  settled s → working s !! "weather" = Some old →
  Forall (λ f, artifact_ok f.2) weather_files →
  for_each_sink load_weather_file weather_count weather_files s
  = (Ok (weather_count + list_sum (map artifact_count weather_files)),
     {| committed := <["weather" := old ++ concat (map (λ f, artifact_rows f.2)
                                                    weather_files)]> (working s);
        working := <["weather" := old ++ concat (map (λ f, artifact_rows f.2)
                                                  weather_files)]> (working s);
        healthy := None;
        stdout := stdout s ++ map weather_line weather_files |}).
Proof.
  revert weather_count s old.
  induction weather_files as [|f weather_files IH]; intros n s old [Hh Hc] Hold Hok.
  - cbn. rewrite Nat.add_0_r, !app_nil_r, (insert_id _ _ _ Hold).
    destruct s; simpl in *; by subst.
  - apply Forall_cons in Hok as [Hf Hok].
    cbn [for_each_sink].
    erewrite sink_bind_ok; [|by apply (load_weather_file_run n f s old)].
    rewrite (IH _ _ (old ++ artifact_rows f.2));
      [|done|apply lookup_insert_eq|done].
    cbn [working stdout map concat].
    rewrite insert_insert_eq, <- !app_assoc. cbn [app].
    f_equal. f_equal. unfold list_sum. simpl. lia.
Qed.

Lemma CSV_FILES_NoDup : NoDup (dict_keys CSV_FILES).
Proof. apply (bool_decide_unpack _). vm_compute. exact I. Qed.

Lemma weather_not_listed : "weather"%string ∉ dict_keys CSV_FILES.
Proof. apply (bool_decide_unpack _). vm_compute. exact I. Qed.

Lemma listed_files (env : environment) :
  (∀ table_name csv_path, (table_name, csv_path) ∈ CSV_FILES →
     loadable (files env !! csv_path)) →
  ∀ table_name csv_path, (table_name, csv_path) ∈ CSV_FILES →
    table_name ∈ dict_keys CSV_FILES ∧ loadable (files env !! csv_path).
Proof.
  intros Hfiles t p Hin. split; [|by apply (Hfiles t p)].
  apply list_elem_of_fmap. by exists (t, p).
Qed.

(** A run that finds no artifact: the tables of the fixed list are
    loaded and reported before the unbound name ends the run. *)
Lemma main_run_without_artifacts (env : environment)
    (tables : gmap string (list db_row)) :
  connect env = Ok None →
  (∀ table_name csv_path, (table_name, csv_path) ∈ CSV_FILES →
     loadable (files env !! csv_path)) →
  weather_dir env = None ∨ weather_dir env = Some [] →
  main env tables
  = {| exit_status := 1;
       database := loaded (files env) CSV_FILES tables;
       output := reports (files env) CSV_FILES
                 ++ [SuccessfullyLoaded (loaded_count (files env) CSV_FILES) 8;
                     Error UnboundLocalError] |}.
Proof.
  intros Hconn Hfiles Hdir. unfold main, main_try. rewrite Hconn.
  erewrite sink_bind_ok;
    [|by apply load_listed_tables_run; [apply listed_files|]].
  destruct Hdir as [-> | ->]; unfold mbind, sink_bind, mret, sink_ret;
    cbn -[reports loaded loaded_count]; by rewrite <- app_assoc.
Qed.

(** A run that finds artifacts. *)
Lemma main_run_with_artifacts (env : environment)
    (tables : gmap string (list db_row)) (weather_file : string * csv_content)
    (weather_files : list (string * csv_content)) :
  connect env = Ok None →
  (∀ table_name csv_path, (table_name, csv_path) ∈ CSV_FILES →
     loadable (files env !! csv_path)) →
  weather_dir env = Some (weather_file :: weather_files) →
  Forall (λ f, artifact_ok f.2) (weather_file :: weather_files) →
  main env tables
  = {| exit_status := 0;
       database :=
         <["weather" := default [] (tables !! "weather")
                        ++ concat (map (λ f, artifact_rows f.2)
                                     (weather_file :: weather_files))]>
           (loaded (files env) CSV_FILES tables);
       output :=
         reports (files env) CSV_FILES
         ++ map weather_line (weather_file :: weather_files)
         ++ optional (0 <? list_sum (map artifact_count
                                       (weather_file :: weather_files)))%nat
              (TotalWeatherRecords
                 (list_sum (map artifact_count (weather_file :: weather_files))))
         ++ [SuccessfullyLoaded (loaded_count (files env) CSV_FILES) 8]
         ++ optional (0 <? list_sum (map artifact_count
                                       (weather_file :: weather_files)))%nat
              (LoadedWeatherRecords
                 (list_sum (map artifact_count (weather_file :: weather_files))))
    |}.
Proof.
  intros Hconn Hfiles Hdir Hok. unfold main. rewrite Hconn.
  set (conn := {| committed := tables; working := tables;
                  healthy := None; stdout := [] |}).
  set (listed := loaded (files env) CSV_FILES tables).
  set (rows := concat (map (λ f, artifact_rows f.2) (weather_file :: weather_files))).
  set (wc := list_sum (map artifact_count (weather_file :: weather_files))).
  destruct weather_schema as [columns Hschema].
  destruct (create_total "weather" columns listed) as [created Hcreate].
  pose proof (create_lookup _ _ _ _ Hcreate) as Hcreated.
  assert (Hweather : listed !! "weather" = tables !! "weather").
  { apply lookup_loaded_other, weather_not_listed. }
  rewrite Hweather in Hcreated.
  assert (Hfinal : <["weather" := default [] (tables !! "weather") ++ rows]> created
                   = <["weather" := default [] (tables !! "weather") ++ rows]> listed).
  { unfold apply_statement in Hcreate.
    destruct (listed !! "weather"); injection Hcreate as <-; [done|].
    apply insert_insert_eq. }
  assert (Hrun : main_try env conn
                 = (Ok (),
                    {| committed := <["weather" := default [] (tables !! "weather")
                                                   ++ rows]> listed;
                       working := <["weather" := default [] (tables !! "weather")
                                                 ++ rows]> listed;
                       healthy := None;
                       stdout :=
                         reports (files env) CSV_FILES
                         ++ map weather_line (weather_file :: weather_files)
                         ++ optional (0 <? wc)%nat (TotalWeatherRecords wc)
                         ++ [SuccessfullyLoaded (loaded_count (files env) CSV_FILES) 8]
                         ++ optional (0 <? wc)%nat (LoadedWeatherRecords wc) |})).
  { unfold main_try.
    erewrite sink_bind_ok;
      [|by apply load_listed_tables_run; [apply listed_files|]].
    rewrite Hdir.
    erewrite sink_bind_ok.
    2:{ rewrite Hschema. unfold execute.
        erewrite sink_bind_ok; [|by apply run_statement_reliable].
        erewrite sink_bind_ok; [|by apply commit_reliable].
        erewrite sink_bind_ok;
          [|by apply (load_weather_files_run _ _ _ (default [] (tables !! "weather")))].
        erewrite sink_bind_ok; [|apply print_if]. reflexivity. }
    erewrite sink_bind_ok; [|apply print_eq].
    rewrite print_if. cbn [working stdout]. fold rows. fold wc. rewrite Hfinal.
    cbn [Nat.add]. change (stdout conn) with (@nil line).
    change (length CSV_FILES) with 8%nat.
    unfold printed, optional.
    destruct (0 <? wc)%nat; cbn [committed working healthy stdout app];
      rewrite <- ?app_assoc; cbn [app]; done. }
  rewrite Hrun. done.
Qed.


Lemma one_row_each_loadable (table_name csv_path : string) :
  (table_name, csv_path) ∈ CSV_FILES → loadable (one_row_each !! csv_path).
Proof.
  intros Hin. apply list_elem_of_In in Hin. simpl in Hin.
  repeat (destruct Hin as [[= <- <-]|Hin]; [reflexivity|]). done.
Qed.




(** ** Runs that fail *)

Lemma for_each_sink_app {S X} (body : S → X → sink S) (st : S) (l1 l2 : list X)
    (s : session) :
  for_each_sink body st (l1 ++ l2) s
  = match for_each_sink body st l1 s with
    | (Ok st', s') => for_each_sink body st' l2 s'
    | (Raise e, s') => (Raise e, s')
    end.
Proof.
  revert st s. induction l1 as [|x l1 IH]; intros st s; [done|].
  cbn [app for_each_sink]. unfold mbind, sink_bind.
  destruct (body st x s) as [[st'|e] s1]; [apply IH|done].
Qed.

Lemma load_csv_to_table_unreadable (fs : gmap string csv_content)
    (table_name csv_path : string) (s : session) (e : exn) :
  settled s → table_name ∈ dict_keys CSV_FILES →
  fs !! csv_path = Some (Unreadable e) →
  load_csv_to_table fs table_name csv_path s
  = (Raise e, {| committed := emptied table_name (working s);
                 working := emptied table_name (working s);
                 healthy := None; stdout := stdout s |}).
Proof.
  intros [Hh Hc] Hlisted Hfile.
  apply get_table_schema_listed in Hlisted as [Hne [columns Hschema]].
  rewrite (load_csv_to_table_opening _ _ _ columns s Hh Hschema).
  by rewrite Hfile.
Qed.



Lemma dict_get_absent {K V} `{EqDecision K} (k : K) (d : list (K * V)) :
  k ∉ dict_keys d → dict_get k d = None.
Proof.
  induction d as [|[k' v'] d IH]; simpl; [done|].
  intros Hnot. apply not_elem_of_cons in Hnot as [Hne Hnot].
  destruct (decide (k = k')); [done|]. by apply IH.
Qed.



(** ** The batch loop *)

Lemma for_each_sink_map {S X Y} (body : S → Y → sink S) (f : X → Y) (st : S)
    (l : list X) (s : session) :
  for_each_sink body st (map f l) s = for_each_sink (λ st x, body st (f x)) st l s.
Proof.
  revert st s. induction l as [|x l IH]; intros st s; [done|].
  cbn [map for_each_sink]. unfold mbind, sink_bind.
  destruct (body st (f x) s) as [[st'|e] s1]; [apply IH|done].
Qed.

Lemma slices_concat {A} (l : list A) (b m : nat) :
  concat (map (λ i, take b (drop i l)) (map (λ k, k * b) (seq 0 m)))
  = take (m * b) l.
Proof.
  induction m as [|m IH]; [done|].
  rewrite seq_S, !map_app, concat_app, IH. cbn [map concat Nat.add].
  rewrite app_nil_r.
  replace (S m * b)%nat with (m * b + b)%nat by lia.
  by rewrite take_take_drop.
Qed.

Lemma slices_bounds {A} (l : list A) (b m : nat) :
  (0 < b)%nat → (m = (length l + b - 1) / b)%nat →
  Forall (λ batch : list A, (1 ≤ length batch ≤ b)%nat)
    (map (λ i, take b (drop i l)) (map (λ k, k * b) (seq 0 m))).
Proof.
  intros Hb Hm. rewrite map_map. apply Forall_forall. intros batch Hin.
  apply list_elem_of_fmap in Hin as (k & -> & Hk).
  apply list_elem_of_In, in_seq in Hk.
  rewrite length_take, length_drop.
  pose proof (Nat.div_mod_eq (length l + b - 1) b) as Hdm.
  pose proof (Nat.mod_upper_bound (length l + b - 1) b ltac:(lia)).
  assert (k * b < length l)%nat by nia. lia.
Qed.

(** X17: the batch loop of both load paths goes through the rows in
    consecutive slices: each slice has between 1 and 1000 rows, the
    slices put end to end are the rows, and for each slice the loop
    computes its values, runs one [executemany] and commits.  So no row
    is skipped or sent twice, and there is no empty batch. *)
Theorem insert_batches_slices (insert_sql : statement)
    (columns : list (option string)) (rows : list csv_row) :
  concat (batches rows) = rows
  ∧ Forall (λ batch : list csv_row, (1 ≤ length batch ≤ batch_size)%nat)
      (batches rows)
  ∧ ∀ s, insert_batches insert_sql columns rows s
         = for_each_sink
             (λ _ batch,
                values ← lift (batch_values columns batch);
                _ ← executemany insert_sql values;
                commit)
             () (batches rows) s.
Proof.
  unfold batches, range_step. split; [|split].
  - rewrite slices_concat. apply take_ge.
    apply batches_cover. unfold batch_size. lia.
  - apply slices_bounds; [unfold batch_size; lia|done].
  - intros s. unfold insert_batches, range_step.
    by rewrite (for_each_sink_map
                  (λ _ batch,
                     values ← lift (batch_values columns batch);
                     _ ← executemany insert_sql values;
                     commit)
                  (λ i, take batch_size (drop i rows))).
Qed.

(** ** Errors in the artifact loop *)

Lemma load_weather_file_returns (weather_count : nat)
    (weather_file : string * csv_content) (s : session) :
  ∃ n s',
    load_weather_file weather_count weather_file s = (Ok n, s')
    ∧ (n = weather_count ∨ n = (weather_count + artifact_count weather_file)%nat).
Proof.
  unfold load_weather_file, try_sink.
  match goal with
  | |- context [match ?body s with _ => _ end] =>
      destruct (body s) as [[n|e] s1] eqn:Hbody
  end.
  - exists n, s1. split; [done|].
    destruct weather_file as [name [[|first rest]|e]]; cbn [snd] in Hbody.
    + left. by injection Hbody.
    + right.
      apply sink_bind_inv in Hbody as (column_names & s2 & _ & Hbody).
      apply sink_bind_inv in Hbody as (? & s3 & _ & Hbody).
      apply sink_bind_inv in Hbody as (? & s4 & _ & Hbody).
      by injection Hbody.
    + done.
  - eexists _, _. split; [reflexivity|]. by left.
Qed.

(** X18: the artifact loop never raises, whatever the artifacts hold and
    whatever the state of the connection: every exception of an
    artifact's load (an unreadable file, a row without a column, a
    statement the database refuses, a lost connection) is caught and the
    loop goes on.  The count it returns is at least the count it
    started from and at most that count plus the rows of the artifacts. *)
Theorem artifact_loop_never_raises (weather_files : list (string * csv_content))
    (weather_count : nat) (s : session) :
  ∃ n s',
    for_each_sink load_weather_file weather_count weather_files s = (Ok n, s')
    ∧ (weather_count ≤ n
       ≤ weather_count + list_sum (map artifact_count weather_files))%nat.
Proof.
  revert weather_count s.
  induction weather_files as [|f weather_files IH]; intros n s.
  - exists n, s. split; [done|]. simpl. lia.
  - destruct (load_weather_file_returns n f s) as (n1 & s1 & Hload & Hn1).
    destruct (IH n1 s1) as (n' & s' & Hloop & Hn').
    exists n', s'. split.
    + cbn [for_each_sink]. erewrite sink_bind_ok; [exact Hloop|exact Hload].
    + cbn [map]. change (list_sum (artifact_count f
                                     :: map artifact_count weather_files))
        with (artifact_count f + list_sum (map artifact_count weather_files))%nat.
      lia.
Qed.

Lemma join_names_unnamed (f : option string → option ident)
    (columns : list (option string)) :
  f None = None →
  forallb named columns = false →
  join_names (map f columns) = Raise TypeError.
Proof.
  intros Hf. induction columns as [|[name|] columns IH]; simpl; [done| |].
  - intros Hall. destruct (f (Some name)); [|done]. by rewrite IH.
  - intros _. by rewrite Hf.
Qed.

(** X19: a source file of the fixed list whose first row has more fields
    than the header (the reader keeps the surplus under the key [None])
    makes [load_csv_to_table] raise [TypeError] when it joins the column
    names: no row is inserted, and the table has been emptied and
    committed before. *)
Theorem load_csv_to_table_surplus_field (fs : gmap string csv_content)
    (table_name csv_path : string) (first : csv_row) (rest : list csv_row)
    (s : session) :
  settled s → table_name ∈ dict_keys CSV_FILES →
  fs !! csv_path = Some (Rows (first :: rest)) →
  forallb named (dict_keys first) = false →
  ∃ s',
    load_csv_to_table fs table_name csv_path s = (Raise TypeError, s')
    ∧ committed s' !! table_name = Some []
    ∧ stdout s' = stdout s.
Proof.
  intros [Hh Hc] Hlisted Hfile Hsurplus.
  apply get_table_schema_listed in Hlisted as [Hne [columns Hschema]].
  rewrite (load_csv_to_table_opening _ _ _ columns s Hh Hschema), Hfile.
  eexists. split.
  - erewrite sink_bind_raise; [done|].
    unfold lift. by rewrite join_names_unnamed.
  - split; [apply lookup_insert_eq|done].
Qed.

Lemma load_csv_to_table_surplus_field_witness :
  ∃ s',
    load_csv_to_table
      {["csv_data/org.csv"%string :=
          Rows [[(Some "id", CStr "2"); (None, CList ["x"])]%string]]}
      "org" "csv_data/org.csv" org_session
    = (Raise TypeError, s')
    ∧ committed s' !! "org"%string = Some []
    ∧ stdout s' = stdout org_session.
Proof.
  apply (load_csv_to_table_surplus_field
           {["csv_data/org.csv"%string :=
               Rows [[(Some "id", CStr "2"); (None, CList ["x"])]%string]]}
           "org" "csv_data/org.csv"
           [(Some "id", CStr "2"); (None, CList ["x"])]%string [] org_session).
  - done.
  - apply list_elem_of_In. simpl. tauto.
  - reflexivity.
  - reflexivity.
Defined.

(** X20: a weather artifact whose first row has more fields than the
    header is contained by the artifact loop: the [TypeError] of joining
    the column names is caught and printed, no statement is sent and the
    count is unchanged, on any session. *)
Theorem load_weather_file_surplus_field (weather_count : nat) (name : string)
    (first : csv_row) (rest : list csv_row) (s : session) :
  forallb named (dict_keys first) = false →
  load_weather_file weather_count (name, Rows (first :: rest)) s
  = (Ok weather_count,
     {| committed := committed s; working := working s; healthy := healthy s;
        stdout := stdout s ++ [WeatherError TypeError] |}).
Proof.
  intros Hsurplus. unfold load_weather_file, try_sink. cbn [snd].
  erewrite sink_bind_raise; [done|].
  unfold lift. by rewrite join_names_unnamed.
Qed.

Lemma load_weather_file_surplus_field_witness :
  load_weather_file 5 ("weather_20240102_000000.csv"%string,
                       Rows [[(Some "time", CStr "t"); (None, CList ["x"])]%string])
    org_session
  = (Ok 5%nat,
     {| committed := committed org_session; working := working org_session;
        healthy := healthy org_session;
        stdout := stdout org_session ++ [WeatherError TypeError] |}).
Proof.
  apply (load_weather_file_surplus_field 5 "weather_20240102_000000.csv"
           [(Some "time", CStr "t"); (None, CList ["x"])]%string [] org_session).
  reflexivity.
Defined.

(** ** A connection lost early *)

Lemma load_csv_to_table_lost (fs : gmap string csv_content)
    (table_name csv_path : string) (columns : list (ident * sqltype))
    (tables : gmap string (list db_row)) (k : nat) (out : list line) :
  get_table_schema table_name = Some (CreateTableIfNotExists table_name columns) →
  (k < 4)%nat →
  ∃ s',
    load_csv_to_table fs table_name csv_path
      {| committed := tables; working := tables; healthy := Some k; stdout := out |}
    = (Raise OperationalError, s')
    ∧ stdout s' = out
    ∧ (committed s' = tables
       ∨ committed s' = <[table_name := []]> tables ∧ tables !! table_name = None).
Proof.
  intros Hschema Hk. unfold load_csv_to_table. rewrite Hschema.
  unfold execute, run_statement, commit, serve, mbind, sink_bind, apply_statement.
  destruct k as [|[|[|[|k]]]]; [| | | |lia]; cbn.
  - eexists. split; [reflexivity|]. split; [done|by left].
  - destruct (tables !! table_name) eqn:Htable; cbn;
      (eexists; split; [reflexivity|]; split; [done|by left]).
  - destruct (tables !! table_name) eqn:Htable; cbn.
    + eexists. split; [reflexivity|]. split; [done|by left].
    + eexists. split; [reflexivity|]. split; [done|by right].
  - destruct (tables !! table_name) eqn:Htable; cbn;
      rewrite ?Htable, ?lookup_insert_eq; cbn.
    + eexists. split; [reflexivity|]. split; [done|by left].
    + eexists. split; [reflexivity|]. split; [done|by right].
Qed.

(** X21: when the connection is lost within the first four statements of
    a run (the create, commit, truncate and commit that open the load of
    [org]), the run exits with status 1, reports a database connection
    error and nothing else, and every table the database held still
    holds its rows: the truncate of [org] was not committed. *)
Theorem early_connection_loss_keeps_tables (env : environment)
    (tables : gmap string (list db_row)) (k : nat) :
  connect env = Ok (Some k) → (k < 4)%nat →
  exit_status (main env tables) = 1%Z
  ∧ output (main env tables) = [DatabaseConnectionError OperationalError]
  ∧ ∀ table rows, tables !! table = Some rows →
      database (main env tables) !! table = Some rows.
Proof.
  intros Hconn Hk. unfold main. rewrite Hconn.
  destruct (load_csv_to_table_lost (files env) "org" "csv_data/org.csv"
              [(Bare "id", INTEGER); (Bare "name", VARCHAR);
               (Bare "timestamp", VARCHAR)]%string tables k [] eq_refl Hk)
    as (s & Hload & Hout & Hdb).
  assert (main_try env {| committed := tables; working := tables;
                          healthy := Some k; stdout := [] |}
          = (Raise OperationalError, s)) as ->.
  { unfold main_try. erewrite sink_bind_raise; [done|].
    change CSV_FILES with (("org", "csv_data/org.csv")%string :: tl CSV_FILES).
    cbn [for_each_sink]. erewrite sink_bind_raise; [done|].
    unfold load_listed_table. erewrite sink_bind_raise; [done|]. exact Hload. }
  cbn [exit_status output database]. rewrite Hout. split; [done|]. split; [done|].
  intros table rows Htable. destruct Hdb as [-> | [-> Horg]]; [done|].
  rewrite lookup_insert_ne; [done|]. intros <-. congruence.
Qed.

Lemma early_connection_loss_keeps_tables_witness :
  exit_status
    (main {| connect := Ok (Some 3%nat); files := ∅; weather_dir := None |}
       {["org" := [[("id", CStr "1")]]]}%string) = 1%Z
  ∧ database
      (main {| connect := Ok (Some 3%nat); files := ∅; weather_dir := None |}
         {["org" := [[("id", CStr "1")]]]}%string) !! "org"%string
    = Some [[("id", CStr "1")]%string].
Proof.
  destruct (early_connection_loss_keeps_tables
              {| connect := Ok (Some 3%nat); files := ∅; weather_dir := None |}
              {["org" := [[("id", CStr "1")]]]}%string 3)
    as (Hexit & _ & Hkept).
  - reflexivity.
  - lia.
  - split; [exact Hexit|]. by apply Hkept.
Defined.

(** ** Writing an artifact *)



(** ** From the pipeline to the weather table *)



(** X24: the columns of the weather table's schema are, in order, the
    columns [save_to_csv] writes with [time] renamed to [datetime], which
    are the names the artifact loop inserts under for an artifact with
    that header: the artifact and the table agree on every column. *)
Theorem weather_schema_matches_artifact :
  get_table_schema "weather"
  = Some (CreateTableIfNotExists "weather"
            (default [] (dict_get "weather"%string schemas)))
  ∧ map (λ column : ident * sqltype, ident_name column.1)
      (default [] (dict_get "weather"%string schemas))
    = map time_to_datetime fieldnames
  ∧ join_names (map table_column (map Some fieldnames))
    = Ok (map (λ column : ident * sqltype, column.1)
            (default [] (dict_get "weather"%string schemas))).
Proof. by repeat split. Qed.
